(** * AudioFocus-Manager: a shallow embedding of the arbitration engine

    The Python sources modelled here are
    - [worker.py]: [BackgroundWorker._handle_worker_queue] and
      [BackgroundWorker._check_audio_and_control_target];
    - [app.py]: the [control_app] message built by [AudioFocusApp.on_app_control];
    - [settings_window.py]: [WhitelistEntry.MODE_MAP] and the pruning of
      [SettingsWindow.get_values];
    - [media_controller.py]: [MediaController.get_media_sessions];
    - [config.py]: [ConfigManager._validate_config].

    Python dicts keyed by strings that are only looked up, inserted into and
    deleted from are stdpp [gmap]s; dicts whose insertion order is observable
    (they are iterated or returned) are association lists.  [time.time()] is
    read once per cycle and is a rational number of seconds.  Exceptions are
    an explicit [Raise] constructor, and [try]/[except] is a match on it. *)

From Stdlib Require Import QArith Qround Ascii.
From stdpp Require Import base gmap strings list pretty.

Open Scope string_scope.

(* ================================================================== *)
(** ** Data model of the worker *)
(* ================================================================== *)

(** A record of [AudioMonitor.get_audio_playing_apps]: the worker only reads
    ['pid'], ['process_name'] and ['is_playing']. *)
Record audio_app := {
  pid : Z;
  process_name : string;
  is_playing : bool
}.

(** [self.target_app_info]: an enriched media session; ['pid'] is [None]
    when no audio process was matched to the session. *)
Record target_info := {
  target_pid : option Z;
  target_source : string
}.

(** An entry of [self.last_known_state]; only its ['status'] is read. *)
Record media_session := {
  status : string
}.

(** A whitelist entry as the configuration stores it: a dict with the
    optional keys ['mode'] and ['delay_seconds']. *)
Record wl_settings := {
  wl_mode : option string;
  wl_delay_seconds : option Z
}.

(** [WhitelistEntry.MODE_MAP]: the Chinese labels of the settings
    combobox and the English values written to the configuration. *)
Definition MODE_MAP : list (string * string) :=
  [("正常", "normal"); ("忽略", "ignore"); ("延时", "delay")].

(** The state of [BackgroundWorker] that the two methods read and write. *)
Record worker := {
  target_app_info : option target_info;
  was_paused_by_app : bool;
  was_manually_paused : bool;
  last_known_state : option (gmap string media_session);
  delay_timers : gmap string Q
}.

(** Messages put on [ui_queue] by the two methods. *)
Inductive ui_msg :=
  | TargetClosed
  | SetPausedFlag (b : bool).

(** Observable effects, in the order the code performs them. *)
Inductive effect :=
  | ControlMedia (app_id : option string) (command : string)
  | UiPut (m : ui_msg).

(** The configuration read by the cycle: ['audio.whitelist'] and
    ['general.ignore_manual_pause'] (default [False]). *)
Record engine_config := {
  cfg_whitelist : gmap string wl_settings;
  cfg_ignore_manual_pause : bool
}.

Definition set_delay_timers (w : worker) (t : gmap string Q) : worker :=
  {| target_app_info := target_app_info w;
     was_paused_by_app := was_paused_by_app w;
     was_manually_paused := was_manually_paused w;
     last_known_state := last_known_state w;
     delay_timers := t |}.

(** Python's [a < b] on floats. *)
Definition qlt_b (a b : Q) : bool := negb (Qle_bool b a).

(** Truthiness of a settings dict: the empty dict is falsy. *)
Definition settings_truthy (s : wl_settings) : bool :=
  match wl_mode s, wl_delay_seconds s with
  | None, None => false
  | _, _ => true
  end.

(** [mode = settings.get('mode') if settings else 'normal'] *)
Definition mode_of (settings : option wl_settings) : option string :=
  match settings with
  | Some s => if settings_truthy s then wl_mode s else Some "normal"
  | None => Some "normal"
  end.

(** [settings.get('delay_seconds', 2)] *)
Definition delay_of (settings : option wl_settings) : Z :=
  match settings with
  | Some s => default 2%Z (wl_delay_seconds s)
  | None => 2%Z
  end.

Definition opt_str_eqb (a : option string) (b : string) : bool :=
  match a with Some x => String.eqb x b | None => false end.

(** The interference scan, lines 203-235: returns [is_interfering] and the
    delay-timer map after the loop ([break] stops the recursion). *)
Fixpoint scan (whitelist : gmap string wl_settings) (tpid : option Z) (now : Q)
    (timers : gmap string Q) (apps : list audio_app) : bool * gmap string Q :=
  match apps with
  | [] => (false, timers)
  | app :: rest =>
      if negb (is_playing app) || bool_decide (Some (pid app) = tpid)
      then scan whitelist tpid now timers rest
      else
        let app_name := process_name app in
        if String.eqb app_name "" then scan whitelist tpid now timers rest
        else
          let settings := whitelist !! app_name in
          let mode := mode_of settings in
          if opt_str_eqb mode "忽略" then scan whitelist tpid now timers rest
          else if opt_str_eqb mode "延时" then
            let d := delay_of settings in
            match timers !! app_name with
            | None => scan whitelist tpid now (<[app_name := now]> timers) rest
            | Some t0 =>
                if qlt_b (now - t0) (inject_Z d)
                then scan whitelist tpid now timers rest
                else (true, timers)
            end
          else (true, timers)
  end.

(** [playing_app_names] and the timer cleanup, lines 196-200. *)
Definition playing_app_names (apps : list audio_app) : list string :=
  map process_name (List.filter is_playing apps).

Definition prune_timers (timers : gmap string Q) (apps : list audio_app)
    : gmap string Q :=
  filter (fun kv => kv.1 ∈ playing_app_names apps) timers.

(** [BackgroundWorker._check_audio_and_control_target], one cycle at clock
    reading [now]. *)
Definition check_audio_and_control_target (cfg : engine_config) (now : Q)
    (w : worker) (apps : list audio_app) : worker * list effect :=
  match target_app_info w with
  | None => (w, [])
  | Some tgt =>
      let timers1 := prune_timers (delay_timers w) apps in
      let '(is_interfering, timers2) :=
        scan (cfg_whitelist cfg) (target_pid tgt) now timers1 apps in
      let w' := set_delay_timers w timers2 in
      let src := target_source tgt in
      let latest_sessions := default ∅ (last_known_state w) in
      match latest_sessions !! src with
      | None => (w', [UiPut TargetClosed])
      | Some sess =>
          if is_interfering then
            if String.eqb (status sess) "Playing" && negb (was_paused_by_app w)
            then (w', [ControlMedia (Some src) "pause"; UiPut (SetPausedFlag true)])
            else (w', [])
          else if was_paused_by_app w then
            if cfg_ignore_manual_pause cfg && was_manually_paused w
            then (w', [UiPut (SetPausedFlag false)])
            else (w', [ControlMedia (Some src) "play"; UiPut (SetPausedFlag false)])
          else (w', [])
      end
  end.

(** The data of a [control_app] message: the worker reads ['source'] and
    ['status']; [app.py] also sends ['command']. *)
Record control_data := {
  cd_source : option string;
  cd_status : option string;
  cd_command : option string
}.

(** Messages of [worker_queue]; [StateUpdate] carries [data.get('target')]
    and [data.get('paused')]. *)
Inductive worker_msg :=
  | StateUpdate (target : option target_info) (paused : option bool)
  | ForceRefresh
  | UiDestroyed
  | ConfigUpdated
  | ControlApp (data : control_data).

(** [config_manager.reload_config()] is the one further effect. *)
Inductive queue_effect :=
  | QEffect (e : effect)
  | ReloadConfig.

(** Truthiness of [self.last_known_state]: [None] and [{}] are falsy. *)
Definition state_truthy (lks : option (gmap string media_session)) : bool :=
  match lks with
  | Some m => negb (bool_decide (m = ∅))
  | None => false
  end.

Definition not_in_state (src : string) (lks : option (gmap string media_session))
    : bool :=
  match lks with
  | Some m => negb (bool_decide (is_Some (m !! src)))
  | None => true
  end.

(** One iteration of the [while True] loop of [_handle_worker_queue]. *)
Definition handle_message (w : worker) (msg : worker_msg)
    : worker * list queue_effect :=
  match msg with
  | StateUpdate target paused =>
      let reset :=
        match target with
        | None => true
        | Some t => state_truthy (last_known_state w)
                    && not_in_state (target_source t) (last_known_state w)
        end in
      ({| target_app_info := target;
          was_paused_by_app := default false paused;
          was_manually_paused := if reset then false else was_manually_paused w;
          last_known_state := last_known_state w;
          delay_timers := delay_timers w |}, [])
  | ForceRefresh | UiDestroyed =>
      ({| target_app_info := target_app_info w;
          was_paused_by_app := was_paused_by_app w;
          was_manually_paused := was_manually_paused w;
          last_known_state := None;
          delay_timers := delay_timers w |}, [])
  | ConfigUpdated => (w, [ReloadConfig])
  | ControlApp data =>
      let source := cd_source data in
      let st := cd_status data in
      let is_target_app :=
        match target_app_info w with
        | Some t => bool_decide (source = Some (target_source t))
        | None => false
        end in
      let playing := opt_str_eqb st "Playing" in
      ({| target_app_info := target_app_info w;
          was_paused_by_app := was_paused_by_app w;
          was_manually_paused :=
            if is_target_app && playing then true else was_manually_paused w;
          last_known_state := None;
          delay_timers := delay_timers w |},
       [QEffect (ControlMedia source (if playing then "pause" else "play"))])
  end.

(** [_handle_worker_queue]: drains the queue in order. *)
Fixpoint handle_worker_queue (w : worker) (msgs : list worker_msg)
    : worker * list queue_effect :=
  match msgs with
  | [] => (w, [])
  | m :: rest =>
      let '(w1, e1) := handle_message w m in
      let '(w2, e2) := handle_worker_queue w1 rest in
      (w2, (e1 ++ e2)%list)
  end.

(** [AudioFocusApp.on_app_control(command='toggle_play_pause', app_info)]:
    the message put on [worker_queue]. *)
Definition on_app_control_msg (source : string) : worker_msg :=
  ControlApp {| cd_source := Some source; cd_status := None;
                cd_command := Some "toggle" |}.

(** Whether the scan of a cycle with target [tgt] finds interference. *)
Definition cycle_is_interfering (cfg : engine_config) (now : Q) (w : worker)
    (tgt : target_info) (apps : list audio_app) : bool :=
  (scan (cfg_whitelist cfg) (target_pid tgt) now
        (prune_timers (delay_timers w) apps) apps).1.

(** Sample values used by the concrete statements below. *)
Definition audiodg : audio_app :=
  {| pid := 7; process_name := "audiodg.exe"; is_playing := true |}.

Definition discord : audio_app :=
  {| pid := 8; process_name := "Discord.exe"; is_playing := true |}.

Definition spotify_target : target_info :=
  {| target_pid := Some 1%Z; target_source := "Spotify.exe" |}.

Definition default_whitelist : gmap string wl_settings :=
  <["SystemSoundsService.exe" := {| wl_mode := Some "ignore"; wl_delay_seconds := None |}]>
  (<["audiodg.exe" := {| wl_mode := Some "ignore"; wl_delay_seconds := None |}]> ∅).

Definition target_A : target_info :=
  {| target_pid := Some 10%Z; target_source := "A" |}.

Definition target_B : target_info :=
  {| target_pid := Some 11%Z; target_source := "B" |}.

(** A worker whose target A was paused by hand while sessions A and B are
    both in the snapshot. *)
Definition worker_A_manual : worker :=
  {| target_app_info := Some target_A; was_paused_by_app := false;
     was_manually_paused := true;
     last_known_state :=
       Some (<["A" := {| status := "Paused" |}]> {[ "B" := {| status := "Playing" |} ]});
     delay_timers := ∅ |}.
Definition worker_paused_by_app (manual : bool)
    (lks : option (gmap string media_session)) : worker :=
  {| target_app_info := Some spotify_target; was_paused_by_app := true;
     was_manually_paused := manual; last_known_state := lks;
     delay_timers := ∅ |}.
Definition worker_no_target_with_timer : worker :=
  {| target_app_info := None; was_paused_by_app := false;
     was_manually_paused := false; last_known_state := None;
     delay_timers := {[ "Discord.exe" := 0%Q ]} |}.
(* ================================================================== *)
(** ** The settings window's whitelist *)
(* ================================================================== *)

(** [SettingsWindow.whitelist]: a dict from process name to settings,
    iterated in insertion order by [get_values]. *)
Definition sw_whitelist := list (string * wl_settings).

(** The dict comprehension of [SettingsWindow.get_values]
    ([settings.get('mode') != 'normal']). *)
Definition get_values_whitelist (wl : sw_whitelist) : sw_whitelist :=
  List.filter (fun kv => negb (opt_str_eqb (wl_mode kv.2) "normal")) wl.

(** [dict.pop(key, None)] and [dict[key] = value] on an association list. *)
Fixpoint sw_pop (k : string) (wl : sw_whitelist) : sw_whitelist :=
  match wl with
  | [] => []
  | (k', v) :: rest => if String.eqb k k' then rest else (k', v) :: sw_pop k rest
  end.

Fixpoint sw_set (k : string) (v : wl_settings) (wl : sw_whitelist) : sw_whitelist :=
  match wl with
  | [] => [(k, v)]
  | (k', v') :: rest =>
      if String.eqb k k' then (k, v) :: rest else (k', v') :: sw_set k v rest
  end.

(** [SettingsWindow._on_update_whitelist]: a 'normal' entry is removed. *)
Definition on_update_whitelist (wl : sw_whitelist) (name : string)
    (new_settings : wl_settings) : sw_whitelist :=
  if opt_str_eqb (wl_mode new_settings) "normal" then sw_pop name wl
  else sw_set name new_settings wl.
(* ================================================================== *)
(** ** The media session provider *)
(* ================================================================== *)

(** A Python call that returns a value or raises an exception. *)
Inductive py_result (A : Type) :=
  | Ok (a : A)
  | Raise (exc : string).
Arguments Ok {A} a.
Arguments Raise {A} exc.

Inductive log_level := LogDebug | LogWarning | LogError.

(** The WinRT objects read by [get_media_sessions]; each call that may
    raise is a [py_result]; [None] stands for a falsy result. *)
Record media_properties := {
  title : string;
  artist : string
}.

Record playback_info := {
  playback_status : Z
}.

Record gsmtc_session := {
  source_app_user_model_id : string;
  try_get_media_properties_async : py_result (option media_properties);
  get_playback_info : py_result (option playback_info)
}.

Record media_manager := {
  get_sessions : py_result (list gsmtc_session)
}.

(** The dict built for each readable session. *)
Record session_info := {
  si_source : string;
  si_display_name : string;
  si_title : string;
  si_artist : string;
  si_status : string
}.

(** [str.split(c)] for a one-character separator. *)
Fixpoint py_split (c : Ascii.ascii) (s : string) : list string :=
  match s with
  | EmptyString => [""]
  | String x rest =>
      let parts := py_split c rest in
      if Ascii.eqb x c then "" :: parts
      else match parts with
           | p :: ps => String x p :: ps
           | [] => [String x ""]
           end
  end.

Fixpoint str_has_char (c : Ascii.ascii) (s : string) : bool :=
  match s with
  | EmptyString => false
  | String x rest => Ascii.eqb x c || str_has_char c rest
  end.

Definition str_endswith (suffix s : string) : bool :=
  let n := String.length s in
  let k := String.length suffix in
  (k <=? n)%nat && String.eqb (String.substring (n - k) k s) suffix.

(** [MediaController.get_app_name_from_source]. *)
Definition get_app_name_from_source (source_id : string) : string :=
  let fallback :=
    let name := List.hd "" (py_split "."%char source_id) in
    if str_endswith "AB" name
    then String.substring 0 (String.length name - 2) name
    else name in
  if str_has_char "!"%char source_id then
    let app_part := List.hd "" (py_split "!"%char source_id) in
    let parts := py_split "."%char app_part in
    if (1 <? length parts)%nat
    then List.hd "" (py_split "_"%char (List.nth 1 parts ""))
    else fallback
  else fallback.

Definition status_str (st : Z) : string :=
  if (st =? 4)%Z then "Playing"
  else if (st =? 5)%Z then "Paused"
  else if (st =? 3)%Z then "Stopped"
  else "Unknown".

(** The body of the inner [try] for one session: its log lines and either
    the session's entry ([None] when [info] or [playback_info] is falsy) or
    the exception it raised. *)
Definition read_session (s : gsmtc_session)
    : list log_level * py_result (option session_info) :=
  match try_get_media_properties_async s with
  | Raise e => ([], Raise e)
  | Ok info =>
      match get_playback_info s with
      | Raise e => ([], Raise e)
      | Ok pb =>
          match info, pb with
          | Some i, Some p =>
              let sid := source_app_user_model_id s in
              ([LogDebug],
               Ok (Some {| si_source := sid;
                           si_display_name := get_app_name_from_source sid;
                           si_title := title i; si_artist := artist i;
                           si_status := status_str (playback_status p) |}))
          | _, _ => ([], Ok None)
          end
      end
  end.

(** The [for session in sessions] loop with its inner [try]/[except]. *)
Fixpoint collect_sessions (ss : list gsmtc_session)
    : list log_level * list session_info :=
  match ss with
  | [] => ([], [])
  | s :: rest =>
      let '(l1, r) := read_session s in
      let '(l2, out) := collect_sessions rest in
      match r with
      | Raise _ => ((l1 ++ LogError :: l2)%list, out)
      | Ok None => ((l1 ++ l2)%list, out)
      | Ok (Some si) => ((l1 ++ l2)%list, si :: out)
      end
  end.

(** [MediaController.get_media_sessions], with [self.manager]. *)
Definition get_media_sessions (manager : option media_manager)
    : list log_level * py_result (list session_info) :=
  match manager with
  | None => ([LogWarning], Ok [])
  | Some m =>
      match get_sessions m with
      | Raise _ => ([LogDebug; LogError; LogDebug], Ok [])
      | Ok ss =>
          let '(l, out) := collect_sessions ss in
          ((LogDebug :: LogDebug :: l ++ [LogDebug])%list, Ok out)
      end
  end.

Definition sess_ok (sid : string) : gsmtc_session :=
  {| source_app_user_model_id := sid;
     try_get_media_properties_async := Ok (Some {| title := "t"; artist := "a" |});
     get_playback_info := Ok (Some {| playback_status := 4%Z |}) |}.

Definition sess_broken : gsmtc_session :=
  {| source_app_user_model_id := "Broken.exe";
     try_get_media_properties_async := Raise "OSError";
     get_playback_info := Ok None |}.
(* ================================================================== *)
(** ** The configuration loader *)
(* ================================================================== *)

(** A value produced by [yaml.safe_load]: a float carries its [repr] and
    what [int()] makes of it ([None] for inf and nan); a mapping is the
    Python dict it builds, in insertion order, with distinct keys. *)
#[warnings="-register-all"]
Inductive yval :=
  | YNone
  | YBool (b : bool)
  | YInt (z : Z)
  | YFloat (repr : string) (trunc : option Z)
  | YStr (s : string)
  | YList (l : list yval)
  | YDict (kvs : list (yval * yval)).

Definition dq : Ascii.ascii := Ascii.ascii_of_nat 34.

(** [repr()] of a value nested in a container.  String quoting follows
    Python's choice of quote; escape sequences are not reproduced. *)
Fixpoint py_repr (v : yval) : string :=
  match v with
  | YNone => "None"
  | YBool b => if b then "True" else "False"
  | YInt z => pretty z
  | YFloat r _ => r
  | YStr s =>
      if str_has_char "'"%char s && negb (str_has_char dq s)
      then String dq (s ++ String dq "")
      else "'" ++ s ++ "'"
  | YList l => "[" ++ String.concat ", " (map py_repr l) ++ "]"
  | YDict kvs =>
      "{" ++ String.concat ", "
               (map (fun kv => py_repr kv.1 ++ ": " ++ py_repr kv.2) kvs) ++ "}"
  end.

(** [str()]. *)
Definition py_str (v : yval) : string :=
  match v with
  | YStr s => s
  | _ => py_repr v
  end.

Definition is_py_space (c : Ascii.ascii) : bool :=
  let n := Ascii.nat_of_ascii c in
  (n =? 32)%nat || ((9 <=? n)%nat && (n <=? 13)%nat).

Fixpoint lstrip (s : string) : string :=
  match s with
  | String c rest => if is_py_space c then lstrip rest else s
  | EmptyString => EmptyString
  end.

Definition str_rev (s : string) : string :=
  String.string_of_list_ascii (rev (String.list_ascii_of_string s)).

Definition py_strip (s : string) : string := str_rev (lstrip (str_rev (lstrip s))).

Definition digit_of (c : Ascii.ascii) : option Z :=
  let n := Ascii.nat_of_ascii c in
  if (48 <=? n)%nat && (n <=? 57)%nat then Some (Z.of_nat (n - 48)) else None.

(** Decimal digits, with single underscores allowed between digits;
    [after_digit] says whether the previous character was a digit. *)
Fixpoint parse_digits (s : string) (acc : Z) (after_digit : bool) : option Z :=
  match s with
  | EmptyString => if after_digit then Some acc else None
  | String c rest =>
      match digit_of c with
      | Some d => parse_digits rest (acc * 10 + d) true
      | None =>
          if Ascii.eqb c "_"%char && after_digit
          then parse_digits rest acc false
          else None
      end
  end.

(** [int(s)] for a string: surrounding whitespace, an optional sign, then
    decimal digits; anything else raises [ValueError]. *)
Definition parse_int_str (s : string) : option Z :=
  match py_strip s with
  | String c rest =>
      if Ascii.eqb c "-"%char then option_map Z.opp (parse_digits rest 0 false)
      else if Ascii.eqb c "+"%char then parse_digits rest 0 false
      else parse_digits (String c rest) 0 false
  | EmptyString => None
  end.

(** [int()]. *)
Definition py_int (v : yval) : py_result Z :=
  match v with
  | YBool b => Ok (if b then 1 else 0)%Z
  | YInt z => Ok z
  | YFloat _ (Some z) => Ok z
  | YFloat _ None => Raise "OverflowError"
  | YStr s => match parse_int_str s with Some z => Ok z | None => Raise "ValueError" end
  | _ => Raise "TypeError"
  end.

(** [d.get(k)] on a dict with string key [k]; only a [str] key equals it. *)
Fixpoint dict_lookup (kvs : list (yval * yval)) (k : string) : option yval :=
  match kvs with
  | [] => None
  | (YStr k', v) :: rest => if String.eqb k k' then Some v else dict_lookup rest k
  | _ :: rest => dict_lookup rest k
  end.

(** [d[k] = v] with string key [k]: replaces in place, or appends. *)
Fixpoint dict_set (kvs : list (yval * yval)) (k : string) (v : yval)
    : list (yval * yval) :=
  match kvs with
  | [] => [(YStr k, v)]
  | (YStr k', v') :: rest =>
      if String.eqb k k' then (YStr k', v) :: rest else (YStr k', v') :: dict_set rest k v
  | kv :: rest => kv :: dict_set rest k v
  end.

(** [config[k1][k2] = v] when [config[k1]] is a dict. *)
Definition set_in (cfg : yval) (k1 k2 : string) (v : yval) : yval :=
  match cfg with
  | YDict kvs =>
      match dict_lookup kvs k1 with
      | Some (YDict inner) => YDict (dict_set kvs k1 (YDict (dict_set inner k2 v)))
      | _ => cfg
      end
  | _ => cfg
  end.

Definition get_in (cfg : yval) (k1 k2 : string) : option yval :=
  match cfg with
  | YDict kvs =>
      match dict_lookup kvs k1 with
      | Some (YDict inner) => dict_lookup inner k2
      | _ => None
      end
  | _ => None
  end.

(** [ConfigManager.defaults]. *)
Definition defaults : yval :=
  YDict [(YStr "general", YDict [(YStr "always_on_top", YBool false);
                                 (YStr "debug_mode", YBool false)]);
         (YStr "logging", YDict [(YStr "log_retention_days", YInt 7)]);
         (YStr "audio", YDict [(YStr "whitelist",
            YDict [(YStr "SystemSoundsService.exe", YDict [(YStr "mode", YStr "ignore")]);
                   (YStr "audiodg.exe", YDict [(YStr "mode", YStr "ignore")])])])].
(** The new-style whitelist loop of [_validate_config], lines 72-78, with
    [validated_whitelist] as accumulator; [int()] may raise. *)
Fixpoint validate_whitelist (acc : list (yval * yval)) (entries : list (yval * yval))
    : py_result (list (yval * yval)) :=
  match entries with
  | [] => Ok acc
  | (app, settings) :: rest =>
      match settings with
      | YDict s =>
          match dict_lookup s "mode" with
          | Some mv =>
              match py_int (default (YInt 2) (dict_lookup s "delay_seconds")) with
              | Ok d =>
                  validate_whitelist
                    (dict_set acc (py_str app)
                       (YDict [(YStr "mode", YStr (py_str mv));
                               (YStr "delay_seconds", YInt d)])) rest
              | Raise e => Raise e
              end
          | None => validate_whitelist acc rest
          end
      | _ => validate_whitelist acc rest
      end
  end.

(** The migration of the old [ignored_processes] list, lines 85-89. *)
Fixpoint migrate_ignored (migrated : list (yval * yval)) (ps : list yval)
    : list (yval * yval) :=
  match ps with
  | [] => migrated
  | p :: rest =>
      let name := py_str p in
      let migrated' :=
        match dict_lookup migrated name with
        | None => dict_set migrated name (YDict [(YStr "mode", YStr "ignore")])
        | Some _ => migrated
        end in
      migrate_ignored migrated' rest
  end.

(** [isinstance(x, bool)] and [isinstance(x, int)] (a bool is an int). *)
Definition validate_general (u : list (yval * yval)) (cfg : yval) : yval :=
  match dict_lookup u "general" with
  | Some (YDict g) =>
      let cfg1 :=
        match dict_lookup g "always_on_top" with
        | Some (YBool b) => set_in cfg "general" "always_on_top" (YBool b)
        | _ => cfg
        end in
      match dict_lookup g "debug_mode" with
      | Some (YBool b) => set_in cfg1 "general" "debug_mode" (YBool b)
      | _ => cfg1
      end
  | _ => cfg
  end.

(** [max(1, min(days, 365))]; for a bool both builtins keep the int 1. *)
Definition validate_logging (u : list (yval * yval)) (cfg : yval) : yval :=
  match dict_lookup u "logging" with
  | Some (YDict lg) =>
      match dict_lookup lg "log_retention_days" with
      | Some (YInt days) =>
          set_in cfg "logging" "log_retention_days" (YInt (Z.max 1 (Z.min days 365)))
      | Some (YBool _) => set_in cfg "logging" "log_retention_days" (YInt 1)
      | _ => cfg
      end
  | _ => cfg
  end.

Definition validate_audio (u : list (yval * yval)) (cfg : yval) : py_result yval :=
  match dict_lookup u "audio" with
  | Some (YDict a) =>
      match dict_lookup a "whitelist" with
      | Some (YDict wl) =>
          match validate_whitelist [] wl with
          | Ok out => Ok (set_in cfg "audio" "whitelist" (YDict out))
          | Raise e => Raise e
          end
      | _ =>
          match dict_lookup a "ignored_processes" with
          | Some (YList ps) =>
              let migrated :=
                match get_in cfg "audio" "whitelist" with
                | Some (YDict m) => m
                | _ => []
                end in
              Ok (set_in cfg "audio" "whitelist" (YDict (migrate_ignored migrated ps)))
          | _ => Ok cfg
          end
      end
  | _ => Ok cfg
  end.

(** [ConfigManager._validate_config]. [self.defaults.copy()] is shallow, so
    the Python code also writes its changes into the nested dicts of
    [self.defaults]; the returned configuration is the same for one call. *)
Definition validate_config (user_config : yval) : py_result yval :=
  match user_config with
  | YDict u => validate_audio u (validate_logging u (validate_general u defaults))
  | _ => Raise "AttributeError"
  end.

(** What [_validate_config] makes of one entry of a new-style whitelist. *)
Definition wl_entry_from (wl_in : list (yval * yval)) (k v : yval) : Prop :=
  exists app s mv d,
    In (app, YDict s) wl_in /\
    dict_lookup s "mode" = Some mv /\
    py_int (default (YInt 2) (dict_lookup s "delay_seconds")) = Ok d /\
    k = YStr (py_str app) /\
    v = YDict [(YStr "mode", YStr (py_str mv)); (YStr "delay_seconds", YInt d)].
Definition sample_whitelist_in : list (yval * yval) :=
  [(YStr "Discord.exe", YDict [(YStr "mode", YStr "delay"); (YStr "delay_seconds", YInt 3)]);
   (YStr "game.exe", YDict [(YStr "mode", YStr "ignore")]);
   (YStr "bad.exe", YStr "ignore");
   (YStr "nomode.exe", YDict [(YStr "delay_seconds", YInt 5)])].

Definition sample_user_config : yval :=
  YDict [(YStr "audio", YDict [(YStr "whitelist", YDict sample_whitelist_in)])].

Definition worker_B_with_timer : worker :=
  {| target_app_info := Some target_B; was_paused_by_app := false;
     was_manually_paused := false; last_known_state := None;
     delay_timers := {[ "Discord.exe" := 0%Q ]} |}.

(** A dict configuration whose key [k] holds [x]. *)
Definition cfg_has (cfg : yval) (k : string) (x : yval) : Prop :=
  exists c, cfg = YDict c /\ dict_lookup c k = Some x.

Definition defaults_audio : yval :=
  match defaults with YDict c => default YNone (dict_lookup c "audio") | _ => YNone end.

(** [ConfigManager.get]: [value = value[k]] along the dotted path; a
    missing key ([KeyError]) or a value that cannot be indexed by a string
    ([TypeError]) gives [default]. *)
Fixpoint get_path (v : yval) (ks : list string) (dflt : yval) : yval :=
  match ks with
  | [] => v
  | k :: rest =>
      match v with
      | YDict kvs =>
          match dict_lookup kvs k with
          | Some v' => get_path v' rest dflt
          | None => dflt
          end
      | _ => dflt
      end
  end.

Definition config_get (cfg : yval) (key : string) (dflt : yval) : yval :=
  get_path cfg (py_split "."%char key) dflt.

(** [ConfigManager.set]: [d = d.setdefault(k, {})] for all keys but the
    last, then [d[keys[-1]] = value].  [setdefault] on a non-dict raises
    [AttributeError]; item assignment on a non-dict raises [TypeError].  The
    configuration is a tree here: no dict is reachable along two paths. *)
Fixpoint set_path (d : yval) (ks : list string) (value : yval) : py_result yval :=
  match ks with
  | [] => Ok d
  | [k] =>
      match d with
      | YDict kvs => Ok (YDict (dict_set kvs k value))
      | _ => Raise "TypeError"
      end
  | k :: rest =>
      match d with
      | YDict kvs =>
          let child := match dict_lookup kvs k with Some c => c | None => YDict [] end in
          match set_path child rest value with
          | Ok child' => Ok (YDict (dict_set kvs k child'))
          | Raise e => Raise e
          end
      | _ => Raise "AttributeError"
      end
  end.

Definition config_set (cfg : yval) (key : string) (value : yval) : py_result yval :=
  set_path cfg (py_split "."%char key) value.

(** Truthiness of a loaded YAML document ([if not user_config]). *)
Definition py_truthy (v : yval) : bool :=
  match v with
  | YNone => false
  | YBool b => b
  | YInt z => negb (Z.eqb z 0)
  | YFloat r _ => negb (String.eqb r "0.0" || String.eqb r "-0.0")
  | YStr s => negb (String.eqb s "")
  | YList l => negb (Nat.eqb (length l) 0)
  | YDict kvs => negb (Nat.eqb (length kvs) 0)
  end.

(** The state of [config.yaml] seen by [_load_config]: absent, raising in
    [open] or [yaml.safe_load], or parsed to a value. *)
Inductive config_file :=
  | NoFile
  | Unreadable
  | Parsed (v : yval).

(** [ConfigManager._load_config] as the constructor runs it (an absent
    file is also written with the defaults).  When [_validate_config]
    raises, the returned [self.defaults] already holds the general and
    logging values it wrote through the shallow copy; the whitelist is
    assigned only after its loop, so the default one is kept. *)
Definition load_config (f : config_file) : yval :=
  match f with
  | NoFile => defaults
  | Unreadable => defaults
  | Parsed v =>
      if py_truthy v then
        match validate_config v with
        | Ok c => c
        | Raise _ =>
            match v with
            | YDict u => validate_logging u (validate_general u defaults)
            | _ => defaults
            end
        end
      else defaults
  end.

(** The general and logging parts every validated configuration has. *)
Definition settled_front (b1 b2 : bool) (d : Z) : list (yval * yval) :=
  [(YStr "general", YDict [(YStr "always_on_top", YBool b1);
                          (YStr "debug_mode", YBool b2)]);
   (YStr "logging", YDict [(YStr "log_retention_days", YInt d)])].
Definition ignore_entry : yval := YDict [(YStr "mode", YStr "ignore")].

(** Every entry maps a string key to [{'mode': 'ignore'}]. *)
Definition all_ignore (m : list (yval * yval)) : Prop :=
  forall k v, In (k, v) m -> v = ignore_entry /\ exists name, k = YStr name.
(** [dict.get] on a dict of strings. *)
Fixpoint str_assoc (m : list (string * string)) (k : string) : option string :=
  match m with
  | [] => None
  | (k', v) :: rest => if String.eqb k k' then Some v else str_assoc rest k
  end.

(** [WhitelistEntry.REVERSE_MODE_MAP = {v: k for k, v in MODE_MAP.items()}]. *)
Definition REVERSE_MODE_MAP : list (string * string) :=
  map (fun kv => (kv.2, kv.1)) MODE_MAP.

(** [WhitelistEntry.__init__]: the label shown in the combobox and the
    value of the delay spinbox for the entry's [current_settings]. *)
Definition entry_initial_mode (current_settings : wl_settings) : string :=
  default "正常" (str_assoc REVERSE_MODE_MAP (default "normal" (wl_mode current_settings))).

Definition entry_initial_delay (current_settings : wl_settings) : Z :=
  default 2%Z (wl_delay_seconds current_settings).

(** [WhitelistEntry._on_update]: the [new_settings] passed to the callback
    for the selected label and the spinbox value. *)
Definition entry_on_update (selected_mode_chinese : string) (delay : Z) : wl_settings :=
  {| wl_mode := Some (default "normal" (str_assoc MODE_MAP selected_mode_chinese));
     wl_delay_seconds := Some delay |}.

(** [whitelist.get(process_name)] on the settings window's dict. *)
Fixpoint sw_lookup (k : string) (wl : sw_whitelist) : option wl_settings :=
  match wl with
  | [] => None
  | (k', v) :: rest => if String.eqb k k' then Some v else sw_lookup k rest
  end.
(* ================================================================== *)
(** ** The media session list of the worker *)
(* ================================================================== *)

(** [str.replace(old, new)] for a non-empty [old]: non-overlapping
    occurrences, left to right (the fuel is the length of the string). *)
Fixpoint py_replace_fuel (fuel : nat) (old new s : string) : string :=
  match fuel with
  | O => s
  | S f =>
      match s with
      | EmptyString => EmptyString
      | String c rest =>
          if String.prefix old s
          then new ++ py_replace_fuel f old new
                        (String.substring (String.length old)
                           (String.length s - String.length old) s)
          else String c (py_replace_fuel f old new rest)
      end
  end.

Definition py_replace (old new s : string) : string :=
  py_replace_fuel (String.length s) old new s.

#[global] Instance session_info_eq_dec : EqDecision session_info.
Proof. solve_decision. Defined.

Section SessionsList.
(** The icons and the peak values are opaque Python objects compared by
    [==]; [get_icon_for_pid] answers from its LRU cache, so it is a function
    of the pid; [str.lower] is taken as given. *)
Context {icon peak : Type} `{EqDecision icon} `{EqDecision peak}.
Variable get_icon_for_pid : Z -> option icon.
Variable py_lower : string -> string.

(** An entry of [self.latest_audio_apps_with_icons], with the keys
    [_update_media_sessions_list_async] reads. *)
Record known_app := {
  ka_pid : Z;
  ka_process_name : string;
  ka_display_name : string;
  ka_peak_value : peak
}.

(** A session of [get_media_sessions] after the enrichment of lines
    277-289; [None] in [es_process_name] or [es_peak_value] is an absent
    key. *)
Record enriched_session := {
  es_source : string;
  es_display_name : string;
  es_title : string;
  es_artist : string;
  es_status : string;
  es_pid : option Z;
  es_icon : option icon;
  es_process_name : option string;
  es_peak_value : option peak
}.

#[global] Instance enriched_session_eq_dec : EqDecision enriched_session.
Proof. solve_decision. Defined.

(** [if pid] on [Optional[int]]. *)
Definition pid_truthy (p : option Z) : bool :=
  match p with Some z => negb (Z.eqb z 0) | None => false end.

(** The dict comprehensions of lines 275 and 279 (a later app wins). *)
Definition details_by_pid (apps : list known_app) : gmap Z known_app :=
  fold_left (fun m a => <[ka_pid a := a]> m) apps ∅.

Definition pid_map_of (apps : list known_app) : gmap string Z :=
  fold_left (fun m a => <[py_replace ".exe" "" (py_lower (ka_process_name a)) := ka_pid a]> m)
    apps ∅.

(** One pass of the [for session_info in media_sessions] loop. *)
Definition enrich_session (apps : list known_app) (s : session_info) : enriched_session :=
  let p := pid_map_of apps !! py_lower (si_display_name s) in
  let ic := match p with
            | Some z => if pid_truthy p then get_icon_for_pid z else None
            | None => None
            end in
  let base := {| es_source := si_source s; es_display_name := si_display_name s;
                 es_title := si_title s; es_artist := si_artist s;
                 es_status := si_status s; es_pid := p; es_icon := ic;
                 es_process_name := None; es_peak_value := None |} in
  match p with
  | Some z =>
      if pid_truthy p then
        match details_by_pid apps !! z with
        | Some d => {| es_source := si_source s; es_display_name := ka_display_name d;
                       es_title := si_title s; es_artist := si_artist s;
                       es_status := si_status s; es_pid := p; es_icon := ic;
                       es_process_name := Some (ka_process_name d);
                       es_peak_value := Some (ka_peak_value d) |}
        | None => base
        end
      else base
  | None => base
  end.

(** [{s['source']: s for s in enriched_sessions}] (a later session wins). *)
Definition snapshot (es : list enriched_session) : gmap string enriched_session :=
  fold_left (fun m s => <[es_source s := s]> m) es ∅.

(** [current_state_for_ui] for the sessions read and the cached apps. *)
Definition current_snapshot (apps : list known_app) (ms : list session_info)
    : gmap string enriched_session :=
  snapshot (map (enrich_session apps) ms).

(** The part of [BackgroundWorker] the method reads and writes. *)
Record sessions_state := {
  ss_target : option target_info;
  ss_was_paused_by_app : bool;
  ss_was_manually_paused : bool;
  ss_last_known_state : option (gmap string enriched_session)
}.

(** [_update_media_sessions_list_async] for the sessions returned by
    [get_media_sessions] (which raises nothing) and the cached audio apps:
    the new state and the [update_list] payload put on [ui_queue], if any. *)
Definition update_media_sessions_list (st : sessions_state) (apps : list known_app)
    (media_sessions : list session_info)
    : sessions_state * option (list enriched_session) :=
  let enriched := map (enrich_session apps) media_sessions in
  let current := snapshot enriched in
  let manual :=
    match ss_target st, ss_last_known_state st with
    | Some t, Some lks =>
        if bool_decide (lks = ∅) then ss_was_manually_paused st
        else
          let old_status := es_status <$> lks !! target_source t in
          let new_status := es_status <$> current !! target_source t in
          if opt_str_eqb old_status "Playing" && opt_str_eqb new_status "Paused"
             && negb (ss_was_paused_by_app st)
          then true else ss_was_manually_paused st
    | _, _ => ss_was_manually_paused st
    end in
  let changed := match ss_last_known_state st with
                 | Some m => negb (bool_decide (current = m))
                 | None => true
                 end in
  if changed
  then ({| ss_target := ss_target st; ss_was_paused_by_app := ss_was_paused_by_app st;
           ss_was_manually_paused := manual; ss_last_known_state := Some current |},
        Some enriched)
  else ({| ss_target := ss_target st; ss_was_paused_by_app := ss_was_paused_by_app st;
           ss_was_manually_paused := manual; ss_last_known_state := ss_last_known_state st |},
        None).
End SessionsList.
Section KnownApps.
Context {icon peak : Type}.
Variable get_icon_for_pid : Z -> option icon.

(** An app of [get_audio_playing_apps]; [pa_icon] is ['icon'] ([None] when
    the key is absent, as it is before the loop). *)
Record polled_app := {
  pa_pid : Z;
  pa_process_name : string;
  pa_display_name : string;
  pa_is_playing : bool;
  pa_peak_value : peak;
  pa_icon : option icon
}.

(** [app['icon'] = ic]. *)
Definition with_icon (a : polled_app) (ic : option icon) : polled_app :=
  {| pa_pid := pa_pid a; pa_process_name := pa_process_name a;
     pa_display_name := pa_display_name a; pa_is_playing := pa_is_playing a;
     pa_peak_value := pa_peak_value a; pa_icon := ic |}.

(** The loop of [_periodic_check_loop_async], lines 324-340, over the apps
    and [self.all_known_apps_cache]: the apps with their icons and the new
    cache. *)
Fixpoint cache_icons (cache : gmap string polled_app) (apps : list polled_app)
    : list polled_app * gmap string polled_app :=
  match apps with
  | [] => ([], cache)
  | app :: rest =>
      let process_name := pa_process_name app in
      if String.eqb process_name "" then
        let '(out, c) := cache_icons cache rest in (app :: out, c)
      else
        let app1 := match cache !! process_name with
                    | Some cached_app => with_icon app (pa_icon cached_app)
                    | None => app
                    end in
        let app2 := match pa_icon app1 with
                    | Some _ => app1
                    | None => with_icon app1 (get_icon_for_pid (pa_pid app1))
                    end in
        let '(out, c) := cache_icons (<[process_name := app2]> cache) rest in
        (app2 :: out, c)
  end.
End KnownApps.
(* ================================================================== *)
(** ** The main window's side of the two queues *)
(* ================================================================== *)

(** The fields of [AudioFocusApp] shared with the worker. *)
Record app_state := {
  app_target_app_info : option target_info;
  app_was_paused_by_app : bool
}.

(** [AudioFocusApp._send_state_to_worker]. *)
Definition send_state_to_worker (a : app_state) : worker_msg :=
  StateUpdate (app_target_app_info a) (Some (app_was_paused_by_app a)).

(** The [set_paused_flag] and [target_closed] branches of
    [AudioFocusApp.process_ui_queue]: the new fields and what is put on
    [worker_queue]. *)
Definition process_ui_message (a : app_state) (m : ui_msg) : app_state * list worker_msg :=
  match m with
  | SetPausedFlag b =>
      let a' := {| app_target_app_info := app_target_app_info a;
                   app_was_paused_by_app := b |} in
      (a', [send_state_to_worker a'])
  | TargetClosed =>
      let a' := {| app_target_app_info := None; app_was_paused_by_app := false |} in
      (a', [send_state_to_worker a'])
  end.

Fixpoint process_ui_queue (a : app_state) (ms : list ui_msg) : app_state * list worker_msg :=
  match ms with
  | [] => (a, [])
  | m :: rest =>
      let '(a1, q1) := process_ui_message a m in
      let '(a2, q2) := process_ui_queue a1 rest in
      (a2, (q1 ++ q2)%list)
  end.

(** The messages of the worker's effects that reach [ui_queue]. *)
Fixpoint ui_messages (effs : list effect) : list ui_msg :=
  match effs with
  | [] => []
  | UiPut m :: rest => m :: ui_messages rest
  | ControlMedia _ _ :: rest => ui_messages rest
  end.
(** The session objects as [MediaController.control_media] uses them: the
    id and the two commands, each of which may raise. *)
Record ctl_session := {
  ctl_source_app_user_model_id : string;
  try_play_async : py_result unit;
  try_pause_async : py_result unit
}.

Record ctl_manager := {
  ctl_get_sessions : py_result (list ctl_session)
}.

(** [session.source_app_user_model_id == app_id] ([app_id] may be [None]). *)
Definition ctl_matches (app_id : option string) (s : ctl_session) : bool :=
  opt_str_eqb app_id (ctl_source_app_user_model_id s).

(** The [for ... break] search for [target_session]. *)
Fixpoint find_target_session (app_id : option string) (ss : list ctl_session)
    : option ctl_session :=
  match ss with
  | [] => None
  | s :: rest => if ctl_matches app_id s then Some s else find_target_session app_id rest
  end.

(** A command sent: the session's id and the command. *)
Definition sent_command := (string * string)%type.

(** [MediaController.control_media]: the log levels and the commands sent. *)
Definition control_media (manager : option ctl_manager) (app_id : option string)
    (command : string) : list log_level * list sent_command :=
  match manager with
  | None => ([LogWarning], [])
  | Some m =>
      match ctl_get_sessions m with
      | Raise _ => ([LogDebug; LogError], [])
      | Ok ss =>
          match find_target_session app_id ss with
          | Some ts =>
              let id := ctl_source_app_user_model_id ts in
              if String.eqb command "play" then
                match try_play_async ts with
                | Ok _ => ([LogDebug; LogDebug; LogDebug], [(id, "play")])
                | Raise _ => ([LogDebug; LogDebug; LogError], [(id, "play")])
                end
              else if String.eqb command "pause" then
                match try_pause_async ts with
                | Ok _ => ([LogDebug; LogDebug; LogDebug], [(id, "pause")])
                | Raise _ => ([LogDebug; LogDebug; LogError], [(id, "pause")])
                end
              else ([LogDebug; LogDebug], [])
          | None => ([LogDebug; LogWarning], [])
          end
      end
  end.
(* ================================================================== *)
(** ** Log cleanup *)
(* ================================================================== *)

(** A [*.log] file of the log directory: its [st_size], its [st_mtime]
    and whether [unlink()] succeeds. *)
Record log_file := {
  lf_name : string;
  lf_size : Z;
  lf_mtime : Q;
  lf_unlink_ok : bool
}.

(** [(now - datetime.fromtimestamp(st_mtime)).days]: whole days, rounded
    down. *)
Definition age_days (now : Q) (f : log_file) : Z :=
  Qfloor ((now - lf_mtime f) / 86400).

(** [cleanup_job] of [AppLogger._clean_logs]: the files unlinked, in
    order, and whether the job stopped on an exception ([log_error]). *)
Fixpoint cleanup_job (now : Q) (retention_days : Z) (files : list log_file)
    : list log_file * bool :=
  match files with
  | [] => ([], false)
  | f :: rest =>
      if Z.eqb (lf_size f) 0 || Z.leb retention_days (age_days now f) then
        if lf_unlink_ok f then
          let '(removed, err) := cleanup_job now retention_days rest in (f :: removed, err)
        else ([], true)
      else cleanup_job now retention_days rest
  end.

(** [main.py]: [logger.setup(log_retention_days=config_manager.get(
    'logging.log_retention_days', 7))] on the configuration loaded at start;
    a value that cannot be compared with an int makes the job stop. *)
Definition startup_cleanup (f : config_file) (now : Q) (files : list log_file)
    : list log_file * bool :=
  match config_get (load_config f) "logging.log_retention_days" (YInt 7) with
  | YInt d => cleanup_job now d files
  | YBool b => cleanup_job now (if b then 1 else 0) files
  | _ => ([], true)
  end.
(** [config_manager.get('general.ignore_manual_pause', False)] as the
    worker tests it ([if ignore_manual_pause and ...]). *)
Definition worker_ignore_manual_pause (cfg : yval) : bool :=
  py_truthy (config_get cfg "general.ignore_manual_pause" (YBool false)).
(* ================================================================== *)
(** ** The settings dialog of the main window *)
(* ================================================================== *)

(** Binding a call by keywords to parameters without defaults: the
    parameters left unbound (Python raises [TypeError] if there is one). *)
Definition missing_params (params kwargs : list string) : list string :=
  List.filter (fun p => negb (existsb (String.eqb p) kwargs)) params.

(** The parameters of [SettingsWindow.set_initial_values] after [self]. *)
Definition set_initial_values_params : list string :=
  ["debug"; "top"; "retention"; "whitelist"; "all_audio_apps"; "ignore_manual_pause"].

(** What [SettingsWindow.get_values] returns and [show_settings_window]
    writes back. *)
Record settings_values := {
  sv_debug_mode : bool;
  sv_always_on_top : bool;
  sv_log_retention_days : Z;
  sv_whitelist : yval
}.

(** The result of [AudioFocusApp.show_settings_window]: the menu state it
    leaves, the configuration, the messages put on [worker_queue], and
    whether it ended with an exception. *)
Record settings_outcome := {
  so_menu_state : string;
  so_config : yval;
  so_worker_msgs : list worker_msg;
  so_raised : option string
}.

Definition settings_raise (cfg : yval) (e : string) : settings_outcome :=
  {| so_menu_state := "disabled"; so_config := cfg; so_worker_msgs := [];
     so_raised := Some e |}.

(** [show_settings_window] with the dialog's result ([None] when it was
    cancelled); a [config_manager.set] that raises stops the method. *)
Definition show_settings_window (cfg : yval) (saved : option settings_values)
    : settings_outcome :=
  match missing_params set_initial_values_params
          ["debug"; "top"; "retention"; "whitelist"; "all_audio_apps"] with
  | _ :: _ => settings_raise cfg "TypeError"
  | [] =>
      match saved with
      | None => {| so_menu_state := "normal"; so_config := cfg; so_worker_msgs := [];
                   so_raised := None |}
      | Some v =>
          match config_set cfg "general.debug_mode" (YBool (sv_debug_mode v)) with
          | Raise e => settings_raise cfg e
          | Ok c1 =>
          match config_set c1 "general.always_on_top" (YBool (sv_always_on_top v)) with
          | Raise e => settings_raise c1 e
          | Ok c2 =>
          match config_set c2 "logging.log_retention_days" (YInt (sv_log_retention_days v)) with
          | Raise e => settings_raise c2 e
          | Ok c3 =>
          match config_set c3 "audio.whitelist" (sv_whitelist v) with
          | Raise e => settings_raise c3 e
          | Ok c4 => {| so_menu_state := "normal"; so_config := c4;
                        so_worker_msgs := [ConfigUpdated]; so_raised := None |}
          end end end end
      end
  end.
(* ================================================================== *)
(** ** Theorems about the worker *)
(* ================================================================== *)

(** An app that is playing, is not the target and has a process name is
    flagged at once when its mode is anything but the two Chinese labels. *)
Lemma scan_head_flagged wl tpid now timers app rest :
  is_playing app = true ->
  Some (pid app) <> tpid ->
  process_name app <> "" ->
  opt_str_eqb (mode_of (wl !! process_name app)) "忽略" = false ->
  opt_str_eqb (mode_of (wl !! process_name app)) "延时" = false ->
  (scan wl tpid now timers (app :: rest)).1 = true.
Proof.
  intros Hp Hpid Hn Hi Hd. simpl.
  rewrite Hp. rewrite bool_decide_eq_false_2 by exact Hpid. simpl.
  destruct (String.eqb_spec (process_name app) "") as [E|_]; [contradiction|].
  rewrite Hi, Hd. reflexivity.
Qed.

(** The label '忽略' is skipped: the scan goes on with the rest. *)
Lemma scan_head_ignore_label wl tpid now timers app rest :
  is_playing app = true ->
  Some (pid app) <> tpid ->
  process_name app <> "" ->
  mode_of (wl !! process_name app) = Some "忽略" ->
  scan wl tpid now timers (app :: rest) = scan wl tpid now timers rest.
Proof.
  intros Hp Hpid Hn Hm. simpl.
  rewrite Hp. rewrite bool_decide_eq_false_2 by exact Hpid. simpl.
  destruct (String.eqb_spec (process_name app) "") as [E|_]; [contradiction|].
  rewrite Hm. reflexivity.
Qed.

(** Under the label '延时' a first sighting starts the timer and does not
    flag the app. *)
Lemma scan_head_delay_label_start wl tpid now timers app rest :
  is_playing app = true ->
  Some (pid app) <> tpid ->
  process_name app <> "" ->
  mode_of (wl !! process_name app) = Some "延时" ->
  timers !! process_name app = None ->
  scan wl tpid now timers (app :: rest)
  = scan wl tpid now (<[process_name app := now]> timers) rest.
Proof.
  intros Hp Hpid Hn Hm Ht. simpl.
  rewrite Hp. rewrite bool_decide_eq_false_2 by exact Hpid. simpl.
  destruct (String.eqb_spec (process_name app) "") as [E|_]; [contradiction|].
  rewrite Hm. simpl. rewrite Ht. reflexivity.
Qed.

(** Under the label '延时' with a running timer, the app is tolerated while
    the elapsed time is below the threshold and flagged once it reaches it. *)
Lemma scan_head_delay_label_running wl tpid now timers app rest t0 :
  is_playing app = true ->
  Some (pid app) <> tpid ->
  process_name app <> "" ->
  mode_of (wl !! process_name app) = Some "延时" ->
  timers !! process_name app = Some t0 ->
  ((now - t0 < inject_Z (delay_of (wl !! process_name app)))%Q ->
   scan wl tpid now timers (app :: rest) = scan wl tpid now timers rest) /\
  ((inject_Z (delay_of (wl !! process_name app)) <= now - t0)%Q ->
   (scan wl tpid now timers (app :: rest)).1 = true).
Proof.
  intros Hp Hpid Hn Hm Ht. simpl.
  rewrite Hp. rewrite bool_decide_eq_false_2 by exact Hpid. simpl.
  destruct (String.eqb_spec (process_name app) "") as [E|_]; [contradiction|].
  rewrite Hm. simpl. rewrite Ht. unfold qlt_b. split; intros H.
  - destruct (Qle_bool _ _) eqn:E; [|reflexivity].
    apply Qle_bool_iff in E. exfalso. apply (Qlt_not_le _ _ H E).
  - apply Qle_bool_iff in H. rewrite H. reflexivity.
Qed.

(** The scan only writes timers for names of playing apps. *)
Lemma scan_timers_other wl tpid now apps :
  forall (timers : gmap string Q) name,
  name ∉ playing_app_names apps ->
  (scan wl tpid now timers apps).2 !! name = timers !! name.
Proof.
  induction apps as [|app rest IH]; intros timers name Hn; [reflexivity|].
  assert (Hr : name ∉ playing_app_names rest).
  { unfold playing_app_names in *. simpl in Hn.
    destruct (is_playing app); [set_solver|exact Hn]. }
  simpl. destruct (is_playing app) eqn:Ep; simpl; [|apply IH; exact Hr].
  assert (Hne : process_name app <> name).
  { intros <-. apply Hn. unfold playing_app_names. simpl. rewrite Ep.
    set_solver. }
  destruct (bool_decide _); [apply IH; exact Hr|].
  destruct (String.eqb _ _); [apply IH; exact Hr|].
  destruct (opt_str_eqb _ "忽略"); [apply IH; exact Hr|].
  destruct (opt_str_eqb _ "延时"); [|reflexivity].
  destruct (timers !! process_name app); [|].
  - destruct (qlt_b _ _); [apply IH; exact Hr|reflexivity].
  - rewrite IH by exact Hr. apply lookup_insert_ne. exact Hne.
Qed.

Lemma prune_timers_other (timers : gmap string Q) apps name :
  name ∉ playing_app_names apps -> prune_timers timers apps !! name = None.
Proof.
  intros Hn. unfold prune_timers. apply map_lookup_filter_None_2.
  right. intros x _. simpl. exact Hn.
Qed.

(** C1 (code_bug).  A playing, non-target app whose whitelist mode is the
    value 'ignore' that the configuration and the settings window store is
    flagged as interfering as if its mode were 'normal': the scan compares the
    mode with the Chinese label '忽略' only. *)
Theorem scan_ignore_mode_flagged wl tpid now timers app rest s :
  is_playing app = true ->
  Some (pid app) <> tpid ->
  process_name app <> "" ->
  wl !! process_name app = Some s ->
  wl_mode s = Some "ignore" ->
  (scan wl tpid now timers (app :: rest)).1 = true.
Proof.
  intros Hp Hpid Hn Hs Hm.
  apply scan_head_flagged; try assumption;
    rewrite Hs; destruct s as [m d]; simpl in Hm; subst m; reflexivity.
Qed.

Lemma scan_ignore_mode_flagged_witness :
  (scan default_whitelist (Some 1%Z) 0 ∅ [audiodg]).1 = true.
Proof.
  apply (scan_ignore_mode_flagged default_whitelist (Some 1%Z) 0 ∅ audiodg []
           {| wl_mode := Some "ignore"; wl_delay_seconds := None |});
    [reflexivity | discriminate | discriminate | reflexivity | reflexivity].
Defined.

(** The 'normal' half of the scan: a playing, non-target app with a process
    name whose mode is 'normal' (absent from the whitelist included) is
    flagged at once. *)
Lemma scan_normal_flagged wl tpid now timers app rest :
  is_playing app = true ->
  Some (pid app) <> tpid ->
  process_name app <> "" ->
  mode_of (wl !! process_name app) = Some "normal" ->
  (scan wl tpid now timers (app :: rest)).1 = true.
Proof.
  intros Hp Hpid Hn Hm. apply scan_head_flagged; try assumption;
    rewrite Hm; reflexivity.
Qed.

Lemma mode_of_absent wl name :
  (wl : gmap string wl_settings) !! name = None -> mode_of (wl !! name) = Some "normal".
Proof. intros H. rewrite H. reflexivity. Qed.

(** With the default configuration, 'audiodg.exe' playing pauses a playing
    target, although the defaults list it with mode 'ignore'. *)
Example default_whitelist_audiodg_pauses_target :
  (check_audio_and_control_target
     {| cfg_whitelist := default_whitelist; cfg_ignore_manual_pause := false |} 0
     {| target_app_info := Some spotify_target; was_paused_by_app := false;
        was_manually_paused := false;
        last_known_state := Some {[ "Spotify.exe" := {| status := "Playing" |} ]};
        delay_timers := ∅ |}
     [audiodg]).2
  = [ControlMedia (Some "Spotify.exe") "pause"; UiPut (SetPausedFlag true)].
Proof. vm_compute. reflexivity. Qed.

(** C2 (code_bug).  An app whose whitelist mode is the value 'delay' (any
    threshold) is flagged on the very cycle it is first seen playing, with no
    running timer and elapsed time 0: the scan tests the Chinese label '延时'
    only, so 'delay' falls through to the 'normal' branch. *)
Theorem scan_delay_mode_flagged_first_cycle wl tpid now timers app rest s :
  is_playing app = true ->
  Some (pid app) <> tpid ->
  process_name app <> "" ->
  wl !! process_name app = Some s ->
  wl_mode s = Some "delay" ->
  timers !! process_name app = None ->
  (scan wl tpid now timers (app :: rest)).1 = true.
Proof.
  intros Hp Hpid Hn Hs Hm _.
  apply scan_head_flagged; try assumption;
    rewrite Hs; destruct s as [m d]; simpl in Hm; subst m; reflexivity.
Qed.

Lemma scan_delay_mode_flagged_first_cycle_witness :
  (scan {[ "Discord.exe" := {| wl_mode := Some "delay"; wl_delay_seconds := Some 3%Z |} ]}
        (Some 1%Z) 0 ∅ [discord]).1 = true.
Proof.
  apply (scan_delay_mode_flagged_first_cycle _ (Some 1%Z) 0 ∅ discord []
           {| wl_mode := Some "delay"; wl_delay_seconds := Some 3%Z |});
    [reflexivity | discriminate | discriminate | reflexivity | reflexivity
    | reflexivity].
Defined.

(** C3 (code_bug).  Switching the target from session A to session B, both
    present in the last snapshot, keeps [was_manually_paused] set: the reset
    only fires when the new target is cleared or missing from the snapshot,
    not when it differs from the previous target. *)
Theorem state_update_switch_keeps_manual_flag :
  was_manually_paused
    (handle_message worker_A_manual (StateUpdate (Some target_B) (Some false))).1
  = true.
Proof. vm_compute. reflexivity. Qed.

(** The reset does fire when the target is cleared. *)
Lemma state_update_clear_resets w paused :
  was_manually_paused (handle_message w (StateUpdate None paused)).1 = false.
Proof. reflexivity. Qed.


(** C4, counterexample.  Interference is absent and [was_paused_by_app] is
    true, the option is off, yet no play command and no
    [set_paused_flag: false] are emitted when the target is missing from the
    snapshot: only [target_closed] is. *)
Lemma resume_needs_target_in_snapshot :
  (check_audio_and_control_target
     {| cfg_whitelist := ∅; cfg_ignore_manual_pause := false |} 0
     (worker_paused_by_app false (Some ∅)) []).2
  = [UiPut TargetClosed].
Proof. vm_compute. reflexivity. Qed.

(** C4 (corrected).  In a cycle where the target is set and present in the
    latest snapshot, no interference is found and [was_paused_by_app] is
    true: with the ignore-manual-pause option on and [was_manually_paused]
    set, the only effect is one [set_paused_flag: false]; otherwise the
    effects are a play command to the target followed by one
    [set_paused_flag: false]. *)
Theorem resume_or_acknowledge cfg now w apps tgt sess :
  target_app_info w = Some tgt ->
  default ∅ (last_known_state w) !! target_source tgt = Some sess ->
  cycle_is_interfering cfg now w tgt apps = false ->
  was_paused_by_app w = true ->
  (check_audio_and_control_target cfg now w apps).2
  = if cfg_ignore_manual_pause cfg && was_manually_paused w
    then [UiPut (SetPausedFlag false)]
    else [ControlMedia (Some (target_source tgt)) "play"; UiPut (SetPausedFlag false)].
Proof.
  intros Ht Hs Hi Hp. unfold cycle_is_interfering in Hi.
  unfold check_audio_and_control_target. rewrite Ht.
  destruct (scan _ _ _ _ _) as [b t2] eqn:E. simpl in Hi. subst b.
  rewrite Hs, Hp. destruct (_ && _); reflexivity.
Qed.

Lemma resume_or_acknowledge_witness :
  (check_audio_and_control_target
     {| cfg_whitelist := ∅; cfg_ignore_manual_pause := true |} 0
     (worker_paused_by_app true (Some {[ "Spotify.exe" := {| status := "Paused" |} ]})) []).2
  = [UiPut (SetPausedFlag false)].
Proof.
  rewrite (resume_or_acknowledge
             {| cfg_whitelist := ∅; cfg_ignore_manual_pause := true |} 0
             (worker_paused_by_app true (Some {[ "Spotify.exe" := {| status := "Paused" |} ]}))
             [] spotify_target {| status := "Paused" |}); reflexivity.
Defined.

(** C5 (code_bug).  The [control_app] message that [on_app_control] sends
    carries no ['status'], so the worker answers every toggle with a play
    command, whatever the session's current status. *)
Theorem control_app_always_play w source :
  (handle_message w (on_app_control_msg source)).2
  = [QEffect (ControlMedia (Some source) "play")].
Proof. reflexivity. Qed.

(** At a session that is Playing in the worker's snapshot, the toggle sends
    play, not pause. *)
Example control_app_playing_session_gets_play :
  default ∅ (last_known_state worker_A_manual) !! "B" = Some {| status := "Playing" |} /\
  (handle_message worker_A_manual (on_app_control_msg "B")).2
  = [QEffect (ControlMedia (Some "B") "play")].
Proof. split; vm_compute; reflexivity. Qed.

(** The worker's own rule, for a message that does carry its ['status']. *)
Lemma control_app_with_status w source st :
  (handle_message w (ControlApp {| cd_source := Some source; cd_status := Some st;
                                   cd_command := None |})).2
  = [QEffect (ControlMedia (Some source)
                (if String.eqb st "Playing" then "pause" else "play"))].
Proof. reflexivity. Qed.

(** C6 (confirmed).  When a target is set but its source id is absent from
    the latest snapshot, the cycle emits exactly one [target_closed] and no
    pause or play command. *)
Theorem target_absent_closed cfg now w apps tgt :
  target_app_info w = Some tgt ->
  default ∅ (last_known_state w) !! target_source tgt = None ->
  (check_audio_and_control_target cfg now w apps).2 = [UiPut TargetClosed].
Proof.
  intros Ht Hs. unfold check_audio_and_control_target. rewrite Ht.
  destruct (scan _ _ _ _ _) as [b t2]. rewrite Hs. reflexivity.
Qed.

Lemma target_absent_closed_witness :
  (check_audio_and_control_target
     {| cfg_whitelist := ∅; cfg_ignore_manual_pause := false |} 0
     (worker_paused_by_app false None) [audiodg]).2 = [UiPut TargetClosed].
Proof. apply (target_absent_closed _ 0 _ _ spotify_target); reflexivity. Defined.


(** C7, counterexample.  In a cycle with no target, a timer of an app that
    is not playing survives. *)
Lemma no_target_timer_survives :
  ("Discord.exe" ∉ playing_app_names []) /\
  delay_timers (check_audio_and_control_target
                  {| cfg_whitelist := ∅; cfg_ignore_manual_pause := false |} 5
                  worker_no_target_with_timer []).1 !! "Discord.exe" = Some 0%Q.
Proof. split; [set_solver | reflexivity]. Qed.

(** C7 (corrected).  In every cycle in which a target is set, a name that is
    not in the playing set of the cycle has no timer after it; a cycle with no
    target leaves the delay-timer map unchanged. *)
Theorem delay_timer_cleanup cfg now w apps :
  (forall tgt name, target_app_info w = Some tgt ->
     name ∉ playing_app_names apps ->
     delay_timers (check_audio_and_control_target cfg now w apps).1 !! name = None) /\
  (target_app_info w = None ->
     delay_timers (check_audio_and_control_target cfg now w apps).1 = delay_timers w).
Proof.
  split.
  - intros tgt name Ht Hn. unfold check_audio_and_control_target. rewrite Ht.
    pose proof (scan_timers_other (cfg_whitelist cfg) (target_pid tgt) now apps
                  (prune_timers (delay_timers w) apps) name Hn) as Hs.
    destruct (scan _ _ _ _ _) as [b t2]. simpl in Hs.
    rewrite prune_timers_other in Hs by exact Hn.
    destruct (default ∅ (last_known_state w) !! target_source tgt);
      [destruct b; [destruct (_ && _)|destruct (was_paused_by_app w);
                    [destruct (_ && _)|]]|]; exact Hs.
  - intros Ht. unfold check_audio_and_control_target. rewrite Ht. reflexivity.
Qed.

Lemma delay_timer_cleanup_witness :
  delay_timers (check_audio_and_control_target
                  {| cfg_whitelist := ∅; cfg_ignore_manual_pause := false |} 5
                  worker_B_with_timer []).1 !! "Discord.exe" = None.
Proof.
  apply (proj1 (delay_timer_cleanup {| cfg_whitelist := ∅; cfg_ignore_manual_pause := false |}
                  5 worker_B_with_timer []) target_B); [reflexivity | set_solver].
Defined.


(** C8 (confirmed).  Pruning the whitelist on save is idempotent. *)
Theorem get_values_whitelist_idempotent (wl : sw_whitelist) :
  get_values_whitelist (get_values_whitelist wl) = get_values_whitelist wl.
Proof.
  unfold get_values_whitelist.
  induction wl as [|[k v] rest IH]; [reflexivity|]. simpl.
  destruct (negb (opt_str_eqb (wl_mode v) "normal")) eqn:E; simpl.
  - rewrite E, IH. reflexivity.
  - exact IH.
Qed.

(** The pruned whitelist has no 'normal' entry. *)
Lemma get_values_whitelist_no_normal (wl : sw_whitelist) k v :
  In (k, v) (get_values_whitelist wl) -> wl_mode v <> Some "normal".
Proof.
  unfold get_values_whitelist. intros H. apply filter_In in H as [_ H].
  simpl in H. intros E. rewrite E in H. discriminate.
Qed.

Example app_name_of_uwp_source :
  get_app_name_from_source "Microsoft.ZuneMusic_8wekyb3d8bbwe!Microsoft.ZuneMusic"
  = "ZuneMusic".
Proof. reflexivity. Qed.

Example app_name_of_exe_source :
  get_app_name_from_source "Spotify.exe" = "Spotify".
Proof. reflexivity. Qed.

Lemma collect_sessions_app l1 l2 :
  (collect_sessions (l1 ++ l2)%list).2
  = ((collect_sessions l1).2 ++ (collect_sessions l2).2)%list.
Proof.
  induction l1 as [|s rest IH]; [reflexivity|]. simpl.
  destruct (read_session s) as [la r].
  destruct (collect_sessions (rest ++ l2)) as [lb outb] eqn:Eb.
  destruct (collect_sessions rest) as [lc outc] eqn:Ec.
  simpl in IH. subst outb.
  destruct r as [[si|]|e]; reflexivity.
Qed.

Lemma collect_sessions_failing s :
  ((exists e, try_get_media_properties_async s = Raise e) \/
   (exists e, get_playback_info s = Raise e)) ->
  (collect_sessions [s]).2 = [].
Proof.
  intros [[e He]|[e He]]; simpl; unfold read_session; rewrite He; [reflexivity|].
  destruct (try_get_media_properties_async s); reflexivity.
Qed.

(** C9 (confirmed).  [get_media_sessions] never raises: without a manager it
    returns the empty list and logs a warning, and a session whose
    properties cannot be read is left out while every other session is kept
    as if the failing one were not there. *)
Theorem get_media_sessions_soft :
  (forall manager, exists l, (get_media_sessions manager).2 = Ok l) /\
  get_media_sessions None = ([LogWarning], Ok []) /\
  (forall l1 s l2,
     ((exists e, try_get_media_properties_async s = Raise e) \/
      (exists e, get_playback_info s = Raise e)) ->
     (get_media_sessions (Some {| get_sessions := Ok (l1 ++ s :: l2)%list |})).2
     = (get_media_sessions (Some {| get_sessions := Ok (l1 ++ l2)%list |})).2).
Proof.
  split; [|split; [reflexivity|]].
  - intros [m|]; [|eexists; reflexivity]. simpl.
    destruct (get_sessions m) as [ss|]; [|eexists; reflexivity].
    destruct (collect_sessions ss). eexists. reflexivity.
  - intros l1 s l2 Hs. simpl.
    pose proof (collect_sessions_app l1 (s :: l2)) as E1.
    pose proof (collect_sessions_app l1 l2) as E2.
    pose proof (collect_sessions_app [s] l2) as E3.
    change ([s] ++ l2)%list with (s :: l2) in E3.
    rewrite collect_sessions_failing in E3 by exact Hs. simpl in E3.
    destruct (collect_sessions (l1 ++ s :: l2)) as [la oa].
    destruct (collect_sessions (l1 ++ l2)) as [lb ob].
    simpl in E1, E2. rewrite E1, E2, E3. reflexivity.
Qed.

Lemma get_media_sessions_soft_witness :
  (get_media_sessions
     (Some {| get_sessions := Ok [sess_ok "A.exe"; sess_broken; sess_ok "B.exe"] |})).2
  = (get_media_sessions
       (Some {| get_sessions := Ok [sess_ok "A.exe"; sess_ok "B.exe"] |})).2.
Proof.
  apply (proj2 (proj2 get_media_sessions_soft) [sess_ok "A.exe"] sess_broken
           [sess_ok "B.exe"]).
  left. exists "OSError". reflexivity.
Defined.

Example validate_whitelist_sample :
  validate_config
    (YDict [(YStr "audio", YDict [(YStr "whitelist",
       YDict [(YStr "Discord.exe", YDict [(YStr "mode", YStr "delay"); (YStr "delay_seconds", YStr " 3 ")]);
              (YInt 42, YDict [(YStr "mode", YStr "ignore")]);
              (YStr "bad.exe", YStr "ignore");
              (YStr "nomode.exe", YDict [(YStr "delay_seconds", YInt 5)])])])])
  = Ok (YDict [(YStr "general", YDict [(YStr "always_on_top", YBool false);
                                      (YStr "debug_mode", YBool false)]);
              (YStr "logging", YDict [(YStr "log_retention_days", YInt 7)]);
              (YStr "audio", YDict [(YStr "whitelist",
                 YDict [(YStr "Discord.exe", YDict [(YStr "mode", YStr "delay");
                                                   (YStr "delay_seconds", YInt 3)]);
                        (YStr "42", YDict [(YStr "mode", YStr "ignore");
                                           (YStr "delay_seconds", YInt 2)])])])]).
Proof. vm_compute. reflexivity. Qed.

Example validate_whitelist_bad_int :
  validate_config
    (YDict [(YStr "audio", YDict [(YStr "whitelist",
       YDict [(YStr "x.exe", YDict [(YStr "mode", YStr "delay"); (YStr "delay_seconds", YNone)])])])])
  = Raise "TypeError".
Proof. vm_compute. reflexivity. Qed.

Example py_repr_list_mode : py_str (YList [YStr "a"; YInt (-3)]) = "['a', -3]".
Proof. reflexivity. Qed.

Lemma dict_set_In kvs n v' k v :
  In (k, v) (dict_set kvs n v') -> In (k, v) kvs \/ (k = YStr n /\ v = v').
Proof.
  induction kvs as [|[k0 v0] rest IH]; simpl.
  - intros [H|[]]. injection H as <- <-. right. split; reflexivity.
  - destruct k0; simpl; try (intros [H|H]; [left; left; exact H|];
                              destruct (IH H) as [H'|H']; [left; right; exact H'|right; exact H']).
    destruct (String.eqb_spec n s) as [<-|_]; simpl.
    + intros [H|H]; [injection H as <- <-; right; split; reflexivity|left; right; exact H].
    + intros [H|H]; [left; left; exact H|].
      destruct (IH H) as [H'|H']; [left; right; exact H'|right; exact H'].
Qed.

Lemma dict_set_has kvs n v : In (YStr n, v) (dict_set kvs n v).
Proof.
  induction kvs as [|[k0 v0] rest IH]; simpl; [left; reflexivity|].
  destruct k0; simpl; try (right; exact IH).
  destruct (String.eqb_spec n s) as [<-|_]; simpl; [left; reflexivity|right; exact IH].
Qed.

Lemma dict_set_keeps_key kvs n v2 k v :
  In (k, v) kvs -> exists v', In (k, v') (dict_set kvs n v2).
Proof.
  induction kvs as [|[k0 v0] rest IH]; simpl; [intros []|].
  intros [H|H].
  - injection H as E1 E2. subst k v. destruct k0; simpl; try (exists v0; left; reflexivity).
    destruct (String.eqb n s); eexists; left; reflexivity.
  - destruct (IH H) as [v' Hv'].
    destruct k0; simpl; try (exists v'; right; exact Hv').
    destruct (String.eqb n s); [exists v; right; exact H|exists v'; right; exact Hv'].
Qed.

Lemma dict_lookup_set_eq kvs k v : dict_lookup (dict_set kvs k v) k = Some v.
Proof.
  induction kvs as [|[k0 v0] rest IH]; simpl.
  - rewrite String.eqb_refl. reflexivity.
  - destruct k0; simpl; try exact IH.
    destruct (String.eqb_spec k s) as [<-|Hne]; simpl.
    + rewrite String.eqb_refl. reflexivity.
    + destruct (String.eqb_spec k s); [contradiction|exact IH].
Qed.

Lemma dict_lookup_set_ne kvs k1 k v :
  k1 <> k -> dict_lookup (dict_set kvs k1 v) k = dict_lookup kvs k.
Proof.
  intros Hne. induction kvs as [|[k0 v0] rest IH]; simpl.
  - destruct (String.eqb_spec k k1); [congruence|reflexivity].
  - destruct k0; simpl; try exact IH.
    destruct (String.eqb_spec k1 s) as [<-|_]; simpl.
    + destruct (String.eqb_spec k k1); [congruence|reflexivity].
    + destruct (String.eqb k s); [reflexivity|exact IH].
Qed.

Lemma set_in_keeps cfg k1 k2 v k x :
  k1 <> k -> cfg_has cfg k x -> cfg_has (set_in cfg k1 k2 v) k x.
Proof.
  intros Hne [c [-> Hc]]. unfold set_in.
  destruct (dict_lookup c k1) as [[]|]; try (exists c; split; [reflexivity|exact Hc]).
  eexists. split; [reflexivity|]. rewrite dict_lookup_set_ne by exact Hne. exact Hc.
Qed.

Lemma get_in_set_in cfg k1 k2 v inner :
  cfg_has cfg k1 (YDict inner) -> get_in (set_in cfg k1 k2 v) k1 k2 = Some v.
Proof.
  intros [c [-> Hc]]. unfold set_in. rewrite Hc. simpl.
  rewrite dict_lookup_set_eq. apply dict_lookup_set_eq.
Qed.

Lemma audio_after_general_logging u :
  cfg_has (validate_logging u (validate_general u defaults)) "audio" defaults_audio.
Proof.
  assert (H0 : cfg_has defaults "audio" defaults_audio) by (eexists; split; reflexivity).
  assert (Hg : cfg_has (validate_general u defaults) "audio" defaults_audio).
  { unfold validate_general. repeat case_match;
      repeat (apply set_in_keeps; [discriminate|]); exact H0. }
  unfold validate_logging. repeat case_match;
    repeat (apply set_in_keeps; [discriminate|]); exact Hg.
Qed.

Lemma validate_whitelist_sound wl_in entries :
  forall acc out,
  (forall x, In x entries -> In x wl_in) ->
  (forall k v, In (k, v) acc -> wl_entry_from wl_in k v) ->
  validate_whitelist acc entries = Ok out ->
  forall k v, In (k, v) out -> wl_entry_from wl_in k v.
Proof.
  induction entries as [|[app settings] rest IH]; intros acc out Hsub Hacc Hv.
  - simpl in Hv. injection Hv as <-. exact Hacc.
  - assert (Hr : forall x, In x rest -> In x wl_in) by (intros x Hx; apply Hsub; right; exact Hx).
    simpl in Hv. destruct settings as [| | | | | |s]; try exact (IH acc out Hr Hacc Hv).
    destruct (dict_lookup s "mode") as [mv|] eqn:Em; [|exact (IH acc out Hr Hacc Hv)].
    destruct (py_int _) as [d|e] eqn:Ed; [|discriminate].
    refine (IH _ out Hr _ Hv).
    intros k v Hin. apply dict_set_In in Hin as [Hin|[-> ->]]; [exact (Hacc _ _ Hin)|].
    exists app, s, mv, d. repeat split; try assumption.
    apply Hsub. left. reflexivity.
Qed.

Lemma validate_whitelist_complete entries :
  forall acc out,
  validate_whitelist acc entries = Ok out ->
  (forall k v, In (k, v) acc -> exists v', In (k, v') out) /\
  (forall app s, In (app, YDict s) entries -> is_Some (dict_lookup s "mode") ->
     exists v, In (YStr (py_str app), v) out).
Proof.
  induction entries as [|[app settings] rest IH]; intros acc out Hv.
  - simpl in Hv. injection Hv as <-. split; [intros k v H; exists v; exact H|].
    intros ? ? [].
  - simpl in Hv.
    destruct settings as [| | | | | |s];
      try (destruct (IH acc out Hv) as [H1 H2]; split; [exact H1|];
           intros app' s' [E|Hin] Hm; [discriminate E|exact (H2 app' s' Hin Hm)]).
    destruct (dict_lookup s "mode") as [mv|] eqn:Em.
    + destruct (py_int _) as [d|e] eqn:Ed; [|discriminate].
      destruct (IH _ out Hv) as [H1 H2]. split.
      * intros k v Hin. destruct (dict_set_keeps_key acc (py_str app)
          (YDict [(YStr "mode", YStr (py_str mv)); (YStr "delay_seconds", YInt d)]) k v Hin)
          as [v' Hv']. exact (H1 _ _ Hv').
      * intros app' s' [E|Hin] Hm; [|exact (H2 app' s' Hin Hm)].
        injection E as -> ->. eapply H1. apply dict_set_has.
    + destruct (IH acc out Hv) as [H1 H2]. split; [exact H1|].
      intros app' s' [E|Hin] Hm; [|exact (H2 app' s' Hin Hm)].
      injection E as -> ->. rewrite Em in Hm. destruct Hm as [? Hm]. discriminate.
Qed.

(** C10 (confirmed).  When [_validate_config] accepts a user configuration
    whose [audio.whitelist] is a dict, the whitelist of the result is a dict
    each of whose entries maps a string to [{'mode': <str>, 'delay_seconds':
    <int>}], built from an input entry that is a dict with a 'mode' key
    ([str] of its key and its mode, [int] of its 'delay_seconds' or 2 when it
    has none); every such input entry has its key in the result, and no
    other input entry gives rise to any entry. *)
Theorem validated_whitelist_shape u cfg wl_in :
  validate_config u = Ok cfg ->
  get_in u "audio" "whitelist" = Some (YDict wl_in) ->
  exists out,
    get_in cfg "audio" "whitelist" = Some (YDict out) /\
    (forall k v, In (k, v) out ->
       exists name m d,
         k = YStr name /\
         v = YDict [(YStr "mode", YStr m); (YStr "delay_seconds", YInt d)] /\
         exists app s mv,
           In (app, YDict s) wl_in /\ dict_lookup s "mode" = Some mv /\
           name = py_str app /\ m = py_str mv /\
           py_int (default (YInt 2) (dict_lookup s "delay_seconds")) = Ok d /\
           (dict_lookup s "delay_seconds" = None -> d = 2%Z)) /\
    (forall app s, In (app, YDict s) wl_in -> is_Some (dict_lookup s "mode") ->
       exists v, In (YStr (py_str app), v) out).
Proof.
  intros Hv Hw. destruct u as [| | | | | |u]; try discriminate Hw.
  unfold get_in in Hw. destruct (dict_lookup u "audio") as [[| | | | | |a]|] eqn:Ea;
    try discriminate Hw.
  unfold validate_config, validate_audio in Hv. rewrite Ea, Hw in Hv.
  destruct (validate_whitelist [] wl_in) as [out|e] eqn:Eo; [|discriminate Hv].
  injection Hv as <-. exists out. split; [|split].
  - destruct (audio_after_general_logging u) as [c [Ec Hc]].
    apply (get_in_set_in _ _ _ _ [(YStr "whitelist",
            YDict [(YStr "SystemSoundsService.exe", YDict [(YStr "mode", YStr "ignore")]);
                   (YStr "audiodg.exe", YDict [(YStr "mode", YStr "ignore")])])]).
    exists c. split; [exact Ec|exact Hc].
  - intros k v Hin.
    destruct (validate_whitelist_sound wl_in wl_in [] out (fun x H => H)
                (fun k v (H : In (k, v) []) => match H with end) Eo k v Hin)
      as (app & s & mv & d & Hs & Hm & Hd & -> & ->).
    exists (py_str app), (py_str mv), d. split; [reflexivity|]. split; [reflexivity|].
    exists app, s, mv. repeat split; try assumption.
    intros Hn. rewrite Hn in Hd. simpl in Hd. injection Hd as <-. reflexivity.
  - exact (proj2 (validate_whitelist_complete wl_in [] out Eo)).
Qed.

Lemma validated_whitelist_shape_witness :
  exists out,
    get_in (YDict [(YStr "general", YDict [(YStr "always_on_top", YBool false);
                                          (YStr "debug_mode", YBool false)]);
                  (YStr "logging", YDict [(YStr "log_retention_days", YInt 7)]);
                  (YStr "audio", YDict [(YStr "whitelist",
                     YDict [(YStr "Discord.exe", YDict [(YStr "mode", YStr "delay");
                                                       (YStr "delay_seconds", YInt 3)]);
                            (YStr "game.exe", YDict [(YStr "mode", YStr "ignore");
                                                    (YStr "delay_seconds", YInt 2)])])])])
      "audio" "whitelist" = Some (YDict out) /\
    (forall app s, In (app, YDict s) sample_whitelist_in -> is_Some (dict_lookup s "mode") ->
       exists v, In (YStr (py_str app), v) out).
Proof.
  destruct (validated_whitelist_shape sample_user_config
    (YDict [(YStr "general", YDict [(YStr "always_on_top", YBool false);
                                   (YStr "debug_mode", YBool false)]);
           (YStr "logging", YDict [(YStr "log_retention_days", YInt 7)]);
           (YStr "audio", YDict [(YStr "whitelist",
              YDict [(YStr "Discord.exe", YDict [(YStr "mode", YStr "delay");
                                                (YStr "delay_seconds", YInt 3)]);
                     (YStr "game.exe", YDict [(YStr "mode", YStr "ignore");
                                             (YStr "delay_seconds", YInt 2)])])])])
    sample_whitelist_in) as (out & H1 & _ & H3);
    [vm_compute; reflexivity | vm_compute; reflexivity |].
  exists out. split; [exact H1|exact H3].
Defined.

Lemma py_split_nonempty c s : py_split c s <> [].
Proof.
  induction s as [|x rest IH]; simpl; [discriminate|].
  destruct (Ascii.eqb x c); [discriminate|].
  destruct (py_split c rest); [contradiction|discriminate].
Qed.

Lemma set_path_cons2 d k k2 rest value :
  set_path d (k :: k2 :: rest) value
  = match d with
    | YDict kvs =>
        match set_path (match dict_lookup kvs k with Some c => c | None => YDict [] end)
                       (k2 :: rest) value with
        | Ok child' => Ok (YDict (dict_set kvs k child'))
        | Raise e => Raise e
        end
    | _ => Raise "AttributeError"
    end.
Proof. reflexivity. Qed.

Lemma set_path_get_path ks :
  ks <> [] -> forall d value d' dflt,
  set_path d ks value = Ok d' -> get_path d' ks dflt = value.
Proof.
  induction ks as [|k rest IH]; intros Hne d value d' dflt Hs; [contradiction|].
  destruct rest as [|k2 rest'].
  - destruct d; simpl in Hs; try discriminate. injection Hs as <-. simpl.
    rewrite dict_lookup_set_eq. reflexivity.
  - rewrite set_path_cons2 in Hs. destruct d; try discriminate.
    destruct (set_path _ (k2 :: rest') value) as [c'|e] eqn:Ec; [|discriminate].
    injection Hs as <-. change (get_path (YDict (dict_set kvs k c')) (k :: k2 :: rest') dflt)
      with (match dict_lookup (dict_set kvs k c') k with
            | Some v' => get_path v' (k2 :: rest') dflt | None => dflt end).
    rewrite dict_lookup_set_eq. exact (IH ltac:(discriminate) _ _ _ dflt Ec).
Qed.

(** [config.set(key, value)] followed by [config.get(key, default)] returns
    [value] whenever the [set] does not raise. *)
Theorem config_set_get cfg key value cfg' dflt :
  config_set cfg key value = Ok cfg' -> config_get cfg' key dflt = value.
Proof.
  unfold config_set, config_get. apply set_path_get_path. apply py_split_nonempty.
Qed.

Lemma config_set_get_witness :
  config_get (YDict [(YStr "general", YDict [(YStr "debug_mode", YBool true);
                                            (YStr "ignore_manual_pause", YBool true)])])
             "general.ignore_manual_pause" (YBool false) = YBool true.
Proof.
  apply (config_set_get (YDict [(YStr "general", YDict [(YStr "debug_mode", YBool true)])])
           "general.ignore_manual_pause" (YBool true)). reflexivity.
Defined.

(** [set] on a key leaves [get] of every key with a different first
    component unchanged. *)
Theorem config_set_frame cfg key1 key2 value cfg' dflt :
  List.hd "" (py_split "."%char key1) <> List.hd "" (py_split "."%char key2) ->
  config_set cfg key1 value = Ok cfg' ->
  config_get cfg' key2 dflt = config_get cfg key2 dflt.
Proof.
  unfold config_set, config_get. intros Hne Hs.
  pose proof (py_split_nonempty "."%char key1) as N1.
  pose proof (py_split_nonempty "."%char key2) as N2.
  destruct (py_split "."%char key1) as [|k1 r1]; [contradiction|].
  destruct (py_split "."%char key2) as [|k2 r2]; [contradiction|]. simpl in Hne.
  assert (Hk : exists kvs x, cfg = YDict kvs /\ cfg' = YDict (dict_set kvs k1 x)).
  { destruct r1 as [|k r1'].
    - destruct cfg; simpl in Hs; try discriminate. injection Hs as <-. eauto.
    - rewrite set_path_cons2 in Hs. destruct cfg; try discriminate.
      destruct (set_path _ _ value); [|discriminate]. injection Hs as <-. eauto. }
  destruct Hk as (kvs & x & -> & ->). simpl.
  rewrite dict_lookup_set_ne by exact Hne. reflexivity.
Qed.

Lemma config_set_frame_witness :
  config_get (YDict [(YStr "general", YDict []); (YStr "logging", YDict [(YStr "log_retention_days", YInt 7)])])
             "logging.log_retention_days" YNone = YInt 7.
Proof.
  rewrite <- (config_set_frame (YDict [(YStr "general", YDict []); (YStr "logging", YDict [(YStr "log_retention_days", YInt 7)])])
    "general.debug_mode" "logging.log_retention_days" (YBool true)
    (YDict [(YStr "general", YDict [(YStr "debug_mode", YBool true)]); (YStr "logging", YDict [(YStr "log_retention_days", YInt 7)])])
    YNone); [reflexivity | discriminate | reflexivity].
Defined.

Lemma front_after_general_logging u :
  exists b1 b2 d,
    validate_logging u (validate_general u defaults)
    = YDict (settled_front b1 b2 d ++ [(YStr "audio", defaults_audio)])%list /\
    (1 <= d <= 365)%Z.
Proof.
  unfold validate_logging, validate_general.
  repeat case_match; simpl; eexists _, _, _; (split; [reflexivity|lia]).
Qed.

Lemma validate_audio_front u b1 b2 d cfg :
  validate_audio u (YDict (settled_front b1 b2 d ++ [(YStr "audio", defaults_audio)])%list)
  = Ok cfg ->
  exists w, cfg = YDict (settled_front b1 b2 d ++
                         [(YStr "audio", YDict [(YStr "whitelist", w)])])%list.
Proof.
  unfold validate_audio. intros H.
  repeat case_match; simplify_eq; simpl; eexists; reflexivity.
Qed.

Lemma validated_front u cfg :
  validate_config u = Ok cfg ->
  exists b1 b2 d w,
    cfg = YDict (settled_front b1 b2 d ++
                 [(YStr "audio", YDict [(YStr "whitelist", w)])])%list /\
    (1 <= d <= 365)%Z.
Proof.
  intros H. destruct u as [| | | | | |u]; try discriminate H. simpl in H.
  destruct (front_after_general_logging u) as (b1 & b2 & d & E & Hd). rewrite E in H.
  apply validate_audio_front in H as [w ->].
  exists b1, b2, d, w. split; [reflexivity|exact Hd].
Qed.

(** Whatever [config.yaml] holds, the loaded configuration has
    [log_retention_days] an int between 1 and 365, [always_on_top] and
    [debug_mode] bools, and no [general.ignore_manual_pause] key, so every
    [get] of that key returns the caller's default. *)
Theorem load_config_settings f :
  (exists d, config_get (load_config f) "logging.log_retention_days" YNone = YInt d /\
             (1 <= d <= 365)%Z) /\
  (exists b, config_get (load_config f) "general.always_on_top" YNone = YBool b) /\
  (exists b, config_get (load_config f) "general.debug_mode" YNone = YBool b) /\
  (forall dflt, config_get (load_config f) "general.ignore_manual_pause" dflt = dflt).
Proof.
  assert (Hall : forall b1 b2 d w, (1 <= d <= 365)%Z ->
    let c := YDict (settled_front b1 b2 d ++
                    [(YStr "audio", YDict [(YStr "whitelist", w)])])%list in
    (exists d, config_get c "logging.log_retention_days" YNone = YInt d /\
               (1 <= d <= 365)%Z) /\
    (exists b, config_get c "general.always_on_top" YNone = YBool b) /\
    (exists b, config_get c "general.debug_mode" YNone = YBool b) /\
    (forall dflt, config_get c "general.ignore_manual_pause" dflt = dflt)).
  { intros b1 b2 d w Hd c. split; [exists d; split; [reflexivity|exact Hd]|].
    split; [eexists; reflexivity|]. split; [eexists; reflexivity|]. reflexivity. }
  assert (Hdef : load_config f = defaults \/
                 (exists u, validate_config u = Ok (load_config f)) \/
                 (exists u, load_config f = validate_logging u (validate_general u defaults))).
  { destruct f as [| |v]; simpl; auto.
    destruct (py_truthy v); auto. destruct (validate_config v) eqn:E; eauto.
    destruct v; eauto. }
  destruct Hdef as [E|[[u Hu]|[u E]]].
  - rewrite E. exact (Hall false false 7%Z _ ltac:(lia)).
  - destruct (validated_front u _ Hu) as (b1 & b2 & d & w & E & Hd). rewrite E.
    exact (Hall b1 b2 d w Hd).
  - destruct (front_after_general_logging u) as (b1 & b2 & d & E2 & Hd).
    rewrite E, E2. exact (Hall b1 b2 d _ Hd).
Qed.

Lemma dict_lookup_In kvs k v : dict_lookup kvs k = Some v -> In (YStr k, v) kvs.
Proof.
  induction kvs as [|[k0 v0] rest IH]; simpl; [discriminate|].
  destruct k0; try (intros H; right; exact (IH H)).
  destruct (String.eqb_spec k s) as [<-|_].
  - intros H. injection H as <-. left. reflexivity.
  - intros H. right. exact (IH H).
Qed.

Lemma migrate_ignored_spec ps :
  forall m, all_ignore m ->
  all_ignore (migrate_ignored m ps) /\
  (forall k v, In (k, v) m -> exists v', In (k, v') (migrate_ignored m ps)) /\
  (forall p, In p ps -> exists v, In (YStr (py_str p), v) (migrate_ignored m ps)).
Proof.
  induction ps as [|p rest IH]; intros m Hm; simpl.
  - split; [exact Hm|]. split; [intros k v H; exists v; exact H|]. intros _ [].
  - set (m' := match dict_lookup m (py_str p) with
               | Some _ => m | None => dict_set m (py_str p) ignore_entry end).
    assert (Hm' : all_ignore m').
    { unfold m'. destruct (dict_lookup m (py_str p)); [exact Hm|].
      intros k v H. apply dict_set_In in H as [H|[-> ->]]; [exact (Hm _ _ H)|].
      split; [reflexivity|eexists; reflexivity]. }
    assert (Hkeep : forall k v, In (k, v) m -> exists v', In (k, v') m').
    { intros k v H. unfold m'. destruct (dict_lookup m (py_str p)); [eauto|].
      exact (dict_set_keeps_key _ _ _ _ _ H). }
    assert (Hp : exists v, In (YStr (py_str p), v) m').
    { unfold m'. destruct (dict_lookup m (py_str p)) eqn:E.
      - eexists. apply dict_lookup_In. exact E.
      - eexists. apply dict_set_has. }
    destruct (IH m' Hm') as (H1 & H2 & H3). split; [exact H1|]. split.
    + intros k v H. destruct (Hkeep k v H) as [v' Hv']. exact (H2 _ _ Hv').
    + intros q [<-|Hq]; [|exact (H3 q Hq)].
      destruct Hp as [v Hv]. exact (H2 _ _ Hv).
Qed.

(** An old-style configuration ([audio.ignored_processes] a list and no
    [audio.whitelist] dict) is migrated to a whitelist that keeps the two
    default entries, has a key [str(p)] for every listed process [p], and
    maps every key to [{'mode': 'ignore'}], without a [delay_seconds]. *)
Theorem migrated_whitelist u cfg ps :
  validate_config u = Ok cfg ->
  (forall wl, get_in u "audio" "whitelist" <> Some (YDict wl)) ->
  get_in u "audio" "ignored_processes" = Some (YList ps) ->
  exists m,
    get_in cfg "audio" "whitelist" = Some (YDict m) /\
    all_ignore m /\
    (exists v, In (YStr "SystemSoundsService.exe", v) m) /\
    (exists v, In (YStr "audiodg.exe", v) m) /\
    (forall p, In p ps -> exists v, In (YStr (py_str p), v) m).
Proof.
  intros Hv Hw Hi. destruct u as [| | | | | |u]; try discriminate Hi.
  unfold get_in in Hw, Hi.
  destruct (dict_lookup u "audio") as [[| | | | | |a]|] eqn:Ea; try discriminate Hi.
  unfold validate_config, validate_audio in Hv. rewrite Ea in Hv.
  destruct (front_after_general_logging u) as (b1 & b2 & d & E & _). rewrite E in Hv.
  destruct (dict_lookup a "whitelist") as [[| | | | | |wl]|];
    try (exfalso; exact (Hw wl eq_refl)); rewrite Hi in Hv; simpl in Hv;
    injection Hv as <-;
    (destruct (migrate_ignored_spec ps
       [(YStr "SystemSoundsService.exe", ignore_entry); (YStr "audiodg.exe", ignore_entry)])
       as (H1 & H2 & H3);
     [intros k v [H|[H|[]]]; injection H as <- <-; (split; [reflexivity|eexists; reflexivity])|]);
    eexists; (split; [reflexivity|]); (split; [exact H1|]);
    (split; [apply (H2 _ ignore_entry); left; reflexivity|]);
    (split; [apply (H2 _ ignore_entry); right; left; reflexivity|exact H3]).
Qed.

Lemma migrated_whitelist_witness :
  exists m,
    get_in (load_config (Parsed (YDict [(YStr "audio", YDict
              [(YStr "ignored_processes", YList [YStr "Teams.exe"])])])))
      "audio" "whitelist" = Some (YDict m) /\
    all_ignore m /\
    (exists v, In (YStr "SystemSoundsService.exe", v) m) /\
    (exists v, In (YStr "audiodg.exe", v) m) /\
    (forall p, In p [YStr "Teams.exe"] -> exists v, In (YStr (py_str p), v) m).
Proof.
  apply (migrated_whitelist (YDict [(YStr "audio", YDict
              [(YStr "ignored_processes", YList [YStr "Teams.exe"])])])).
  - vm_compute. reflexivity.
  - intros wl. vm_compute. discriminate.
  - reflexivity.
Defined.

(** An entry's widget, fired without a change by the user, reports the
    mode of the entry when it is 'normal', 'ignore' or 'delay' and 'normal'
    for any other or a missing mode; the delay is the entry's, 2 if it has
    none. *)
Theorem entry_mode_round_trip (s : wl_settings) :
  entry_on_update (entry_initial_mode s) (entry_initial_delay s) =
  {| wl_mode := Some (if opt_str_eqb (wl_mode s) "ignore" then "ignore"
                      else if opt_str_eqb (wl_mode s) "delay" then "delay"
                      else "normal");
     wl_delay_seconds := Some (default 2%Z (wl_delay_seconds s)) |}.
Proof.
  unfold entry_on_update, entry_initial_mode, entry_initial_delay,
    REVERSE_MODE_MAP, MODE_MAP.
  destruct s as [[m|] d]; cbn [map fst snd str_assoc default wl_mode
    wl_delay_seconds opt_str_eqb]; [|reflexivity].
  destruct (String.eqb_spec m "normal") as [->|Hn]; [reflexivity|].
  destruct (String.eqb_spec m "ignore") as [->|Hi]; [reflexivity|].
  destruct (String.eqb_spec m "delay") as [->|Hd]; [reflexivity|].
  apply String.eqb_neq in Hn, Hi, Hd. unfold id. rewrite Hn, Hi, Hd.
  reflexivity.
Qed.

(** Whatever label is selected, the mode sent to the whitelist is one of
    the three values of [MODE_MAP]. *)
Theorem entry_on_update_mode (label : string) (delay : Z) :
  wl_mode (entry_on_update label delay) = Some "normal" \/
  wl_mode (entry_on_update label delay) = Some "ignore" \/
  wl_mode (entry_on_update label delay) = Some "delay".
Proof.
  unfold entry_on_update. simpl.
  destruct (String.eqb label "正常"); [left; reflexivity|].
  destruct (String.eqb label "忽略"); [right; left; reflexivity|].
  destruct (String.eqb label "延时"); [right; right; reflexivity|].
  left; reflexivity.
Qed.

Lemma sw_set_lookup k name v wl :
  sw_lookup k (sw_set name v wl) = if String.eqb k name then Some v else sw_lookup k wl.
Proof.
  induction wl as [|[k' v'] rest IH]; simpl; [reflexivity|].
  destruct (String.eqb_spec name k') as [<-|Hne]; simpl;
    [destruct (k =? name); reflexivity|].
  rewrite IH. destruct (String.eqb_spec k k') as [->|]; [|reflexivity].
  apply String.eqb_neq in Hne. rewrite String.eqb_sym, Hne. reflexivity.
Qed.

Lemma sw_pop_lookup_ne k name wl :
  k <> name -> sw_lookup k (sw_pop name wl) = sw_lookup k wl.
Proof.
  intros Hk. induction wl as [|[k' v'] rest IH]; simpl; [reflexivity|].
  destruct (String.eqb_spec name k') as [<-|]; simpl.
  - apply String.eqb_neq in Hk. rewrite Hk. reflexivity.
  - rewrite IH. reflexivity.
Qed.

Lemma sw_lookup_not_key k wl : ~ In k (map fst wl) -> sw_lookup k wl = None.
Proof.
  induction wl as [|[k' v'] rest IH]; simpl; [reflexivity|].
  intros Hn. destruct (String.eqb_spec k k') as [->|]; [exfalso; apply Hn; left; reflexivity|].
  apply IH. intros H. apply Hn. right. exact H.
Qed.

Lemma sw_pop_lookup_eq name wl :
  NoDup (map fst wl) -> sw_lookup name (sw_pop name wl) = None.
Proof.
  induction wl as [|[k' v'] rest IH]; simpl; [reflexivity|].
  intros Hnd. inversion Hnd as [|? ? Hnin Hnd']; subst.
  destruct (String.eqb_spec name k') as [<-|Hne]; simpl.
  - apply sw_lookup_not_key. rewrite <- list_elem_of_In. exact Hnin.
  - apply String.eqb_neq in Hne. rewrite Hne. exact (IH Hnd').
Qed.

Lemma sw_set_keys name v wl :
  map fst (sw_set name v wl) = map fst wl \/
  (map fst (sw_set name v wl) = map fst wl ++ [name] /\ ~ In name (map fst wl))%list.
Proof.
  induction wl as [|[k' v'] rest IH]; simpl.
  - right. split; [reflexivity|intros []].
  - destruct (String.eqb_spec name k') as [<-|Hne]; simpl; [left; reflexivity|].
    destruct IH as [E|[E Hn]]; rewrite E; [left; reflexivity|right].
    split; [reflexivity|]. intros [H|H]; [exact (Hne (eq_sym H))|exact (Hn H)].
Qed.

Lemma sw_pop_sublist name wl : sublist (map fst (sw_pop name wl)) (map fst wl).
Proof.
  induction wl as [|[k' v'] rest IH]; simpl; [constructor|].
  destruct (String.eqb name k'); simpl.
  - apply sublist_cons. reflexivity.
  - apply sublist_skip. exact IH.
Qed.

(** [_on_update_whitelist] keeps the process names of the whitelist
    distinct. *)
Theorem on_update_whitelist_nodup wl name s :
  NoDup (map fst wl) -> NoDup (map fst (on_update_whitelist wl name s)).
Proof.
  intros Hnd. unfold on_update_whitelist.
  destruct (opt_str_eqb (wl_mode s) "normal").
  - eapply sublist_NoDup; [exact Hnd|apply sw_pop_sublist].
  - destruct (sw_set_keys name s wl) as [E|[E Hn]]; rewrite E; [exact Hnd|].
    apply NoDup_app. split; [exact Hnd|]. split; [|apply NoDup_singleton].
    intros x Hx Hx'. apply list_elem_of_singleton in Hx'. subst x.
    apply Hn. apply list_elem_of_In. exact Hx.
Qed.

(** After [_on_update_whitelist(name, s)] on a whitelist with distinct
    process names, [name] is absent when [s] has the mode 'normal' and maps
    to [s] otherwise; the other names keep their settings. *)
Theorem on_update_whitelist_lookup wl name s k :
  NoDup (map fst wl) ->
  sw_lookup k (on_update_whitelist wl name s) =
    if String.eqb k name
    then (if opt_str_eqb (wl_mode s) "normal" then None else Some s)
    else sw_lookup k wl.
Proof.
  intros Hnd. unfold on_update_whitelist.
  destruct (opt_str_eqb (wl_mode s) "normal").
  - destruct (String.eqb_spec k name) as [->|Hk].
    + exact (sw_pop_lookup_eq name wl Hnd).
    + exact (sw_pop_lookup_ne k name wl Hk).
  - rewrite sw_set_lookup. destruct (k =? name); reflexivity.
Qed.

Lemma on_update_whitelist_lookup_witness :
  NoDup (map fst [("Discord.exe", {| wl_mode := Some "delay"; wl_delay_seconds := Some 3%Z |})]) /\
  sw_lookup "Discord.exe"
    (on_update_whitelist [("Discord.exe", {| wl_mode := Some "delay"; wl_delay_seconds := Some 3%Z |})]
       "Discord.exe" (entry_on_update "正常" 3%Z)) = None.
Proof.
  split; [simpl; apply NoDup_singleton|].
  rewrite (on_update_whitelist_lookup
    [("Discord.exe", {| wl_mode := Some "delay"; wl_delay_seconds := Some 3%Z |})]
    "Discord.exe" (entry_on_update "正常" 3%Z) "Discord.exe"
    ltac:(simpl; apply NoDup_singleton)).
  reflexivity.
Defined.

Section SessionsListTheorems.
Context {icon peak : Type} `{EqDecision icon} `{EqDecision peak}.
Variable get_icon_for_pid : Z -> option icon.
Variable py_lower : string -> string.


(** After [_update_media_sessions_list_async], [last_known_state] is the
    snapshot of the sessions just read, the target and [was_paused_by_app]
    are untouched, and an [update_list] message (with the enriched
    sessions) is sent exactly when the snapshot differs from the previous
    one. *)
Theorem update_sessions_snapshot (st : @sessions_state icon peak) (apps : list (@known_app peak)) ss :
  let '(st', out) := update_media_sessions_list get_icon_for_pid py_lower st apps ss in
  ss_last_known_state st' = Some (current_snapshot get_icon_for_pid py_lower apps ss) /\
  ss_target st' = ss_target st /\
  ss_was_paused_by_app st' = ss_was_paused_by_app st /\
  (out = None <-> ss_last_known_state st = Some (current_snapshot get_icon_for_pid py_lower apps ss)) /\
  (forall l, out = Some l -> l = map (enrich_session get_icon_for_pid py_lower apps) ss).
Proof.
  unfold update_media_sessions_list. fold (current_snapshot get_icon_for_pid py_lower apps ss).
  destruct (ss_last_known_state st) as [m|] eqn:E; simpl.
  - destruct (bool_decide_reflect (current_snapshot get_icon_for_pid py_lower apps ss = m)) as [<-|Hne]; simpl.
    + split; [reflexivity|]. split; [reflexivity|]. split; [reflexivity|].
      split; [split; reflexivity|]. discriminate.
    + split; [reflexivity|]. split; [reflexivity|]. split; [reflexivity|].
      split; [split; [discriminate|intros H; injection H as ->; contradiction]|].
      intros l H; injection H as <-; reflexivity.
  - split; [reflexivity|]. split; [reflexivity|]. split; [reflexivity|].
    split; [split; discriminate|]. intros l H; injection H as <-; reflexivity.
Qed.

(** Reading the same sessions and apps a second time sends nothing and
    changes nothing. *)
Theorem update_sessions_repeat (st : @sessions_state icon peak) (apps : list (@known_app peak)) ss :
  let st' := fst (update_media_sessions_list get_icon_for_pid py_lower st apps ss) in
  update_media_sessions_list get_icon_for_pid py_lower st' apps ss = (st', None).
Proof.
  simpl. pose proof (update_sessions_snapshot st apps ss) as Hs.
  destruct (update_media_sessions_list get_icon_for_pid py_lower st apps ss)
    as [st' out] eqn:Eu. simpl. destruct Hs as (Hl & _).
  unfold update_media_sessions_list. rewrite Hl. simpl.
  rewrite bool_decide_eq_true_2 by reflexivity. simpl.
  replace (match ss_target st' with
           | Some t =>
               if bool_decide (current_snapshot get_icon_for_pid py_lower apps ss = ∅) then ss_was_manually_paused st'
               else
                 if opt_str_eqb (es_status <$> current_snapshot get_icon_for_pid py_lower apps ss !! target_source t) "Playing"
                    && opt_str_eqb (es_status <$> current_snapshot get_icon_for_pid py_lower apps ss !! target_source t) "Paused"
                    && negb (ss_was_paused_by_app st')
                 then true else ss_was_manually_paused st'
           | None => ss_was_manually_paused st'
           end) with (ss_was_manually_paused st').
  - rewrite <- Hl. destruct st'; reflexivity.
  - destruct (ss_target st'); [|reflexivity].
    case_bool_decide; [reflexivity|].
    destruct (es_status <$> current_snapshot get_icon_for_pid py_lower apps ss !! target_source t) as [x|]; simpl;
      [|reflexivity].
    destruct (String.eqb_spec x "Playing") as [->|]; simpl; [reflexivity|].
    reflexivity.
Qed.

(** The manual-pause flag is set by the method exactly when the target's
    session went from 'Playing' in a non-empty previous snapshot to
    'Paused' in the new one while [was_paused_by_app] is false; it is never
    cleared. *)
Theorem update_sessions_manual_pause (st : @sessions_state icon peak) (apps : list (@known_app peak)) ss :
  ss_was_manually_paused
    (fst (update_media_sessions_list get_icon_for_pid py_lower st apps ss)) = true <->
  ss_was_manually_paused st = true \/
  (exists t lks o n,
     ss_target st = Some t /\ ss_last_known_state st = Some lks /\ lks <> ∅ /\
     lks !! target_source t = Some o /\ es_status o = "Playing" /\
     current_snapshot get_icon_for_pid py_lower apps ss !! target_source t = Some n /\ es_status n = "Paused" /\
     ss_was_paused_by_app st = false).
Proof.
  unfold update_media_sessions_list. fold (current_snapshot get_icon_for_pid py_lower apps ss).
  set (man := match ss_target st, ss_last_known_state st with
              | Some t, Some lks => _ | _, _ => _ end).
  assert (Hman : man = true <-> ss_was_manually_paused st = true \/
     (exists t lks o n,
       ss_target st = Some t /\ ss_last_known_state st = Some lks /\ lks <> ∅ /\
       lks !! target_source t = Some o /\ es_status o = "Playing" /\
       current_snapshot get_icon_for_pid py_lower apps ss !! target_source t = Some n /\ es_status n = "Paused" /\
       ss_was_paused_by_app st = false)).
  { unfold man. destruct (ss_target st) as [t|] eqn:Et.
    2: { split; [left; assumption|]. intros [H|(t & _ & _ & _ & H & _)];
         [exact H|discriminate]. }
    destruct (ss_last_known_state st) as [lks|] eqn:El.
    2: { split; [left; assumption|]. intros [H|(t' & lks & _ & _ & _ & H & _)];
         [exact H|discriminate]. }
    case_bool_decide as He.
    { split; [left; assumption|]. intros [H|(t' & lks' & _ & _ & _ & H & Hne & _)];
      [exact H|]. injection H as <-. contradiction. }
    destruct (lks !! target_source t) as [o|] eqn:Eo; simpl.
    2: { split; [left; assumption|].
         intros [H|(t' & lks' & o & _ & Ht & Hl & _ & Ho & _)]; [exact H|].
         injection Ht as <-. injection Hl as <-. congruence. }
    destruct (current_snapshot get_icon_for_pid py_lower apps ss !! target_source t) as [n|] eqn:En; simpl.
    2: { rewrite andb_false_r. simpl.
         split; [left; assumption|].
         intros [H|(t' & lks' & o' & n & Ht & Hl & _ & _ & _ & Hn & _)]; [exact H|].
         injection Ht as <-. congruence. }
    destruct (String.eqb_spec (es_status o) "Playing") as [Hp|Hp];
    destruct (String.eqb_spec (es_status n) "Paused") as [Hq|Hq];
    destruct (ss_was_paused_by_app st) eqn:Eb; simpl;
    try (split; [intros _; right; exists t, lks, o, n; repeat split; assumption|
                 reflexivity]);
    (split; [left; assumption|]);
    intros [H|(t' & lks' & o' & n' & Ht & Hl & _ & Ho & Ho' & Hn & Hn' & Hb)];
    try exact H; injection Ht as <-; injection Hl as <-; congruence. }
  destruct (match ss_last_known_state st with
            | Some m => negb (bool_decide (current_snapshot get_icon_for_pid py_lower apps ss = m)) | None => true end);
    exact Hman.
Qed.
End SessionsListTheorems.

Lemma fold_insert_lookup {K V A} `{Countable K} (key : A -> K) (val : A -> V)
    (l : list A) (m0 : gmap K V) x y :
  fold_left (fun m a => <[key a := val a]> m) l m0 !! x = Some y ->
  (exists a, In a l /\ key a = x /\ val a = y) \/ m0 !! x = Some y.
Proof.
  revert m0. induction l as [|a rest IH]; simpl; intros m0 Hl; [right; exact Hl|].
  destruct (IH _ Hl) as [(b & Hb & Hk & Hv)|H'].
  - left. exists b. split; [right; exact Hb|split; assumption].
  - destruct (decide (key a = x)) as [<-|Hne].
    + rewrite lookup_insert_eq in H'. injection H' as <-. left. exists a.
      split; [left; reflexivity|split; reflexivity].
    + rewrite lookup_insert_ne in H' by exact Hne. right. exact H'.
Qed.

Lemma fold_insert_is_Some {K V A} `{Countable K} (key : A -> K) (val : A -> V)
    (l : list A) (m0 : gmap K V) x :
  (exists a, In a l /\ key a = x) \/ is_Some (m0 !! x) ->
  is_Some (fold_left (fun m a => <[key a := val a]> m) l m0 !! x).
Proof.
  revert m0. induction l as [|a rest IH]; simpl; intros m0 Hx.
  - destruct Hx as [(a & [] & _)|Hs]. exact Hs.
  - apply IH. destruct Hx as [(b & [<-|Hb] & Hk)|Hs].
    + right. rewrite Hk, lookup_insert_eq. eexists. reflexivity.
    + left. exists b. split; assumption.
    + right. destruct (decide (key a = x)) as [<-|Hne].
      * rewrite lookup_insert_eq. eexists. reflexivity.
      * rewrite lookup_insert_ne by exact Hne. exact Hs.
Qed.

Section EnrichTheorems.
Context {icon peak : Type} `{EqDecision icon} `{EqDecision peak}.
Variable get_icon_for_pid : Z -> option icon.
Variable py_lower : string -> string.

(** The pid given to a session is that of a cached audio app whose
    lower-cased process name without '.exe' is the session's lower-cased
    display name; when that pid is not 0 the session takes the
    ['process_name'] and ['display_name'] of an app with the pid. *)
Theorem enrich_session_pid (apps : list (@known_app peak)) (s : session_info) p :
  es_pid (enrich_session get_icon_for_pid py_lower apps s) = Some p ->
  (exists a, In a apps /\ ka_pid a = p /\
     py_replace ".exe" "" (py_lower (ka_process_name a)) = py_lower (si_display_name s)) /\
  (p <> 0%Z -> exists d, In d apps /\ ka_pid d = p /\
     es_process_name (enrich_session get_icon_for_pid py_lower apps s)
       = Some (ka_process_name d) /\
     es_display_name (enrich_session get_icon_for_pid py_lower apps s)
       = ka_display_name d).
Proof.
  unfold enrich_session.
  destruct (pid_map_of py_lower apps !! py_lower (si_display_name s)) as [z|] eqn:Ez;
    [|simpl; discriminate].
  assert (Hin : exists a, In a apps /\ ka_pid a = z /\
     py_replace ".exe" "" (py_lower (ka_process_name a)) = py_lower (si_display_name s)).
  { unfold pid_map_of in Ez. apply fold_insert_lookup in Ez as [(a & Ha & Hk & Hv)|Hn].
    - exists a. split; [exact Ha|split; assumption].
    - rewrite lookup_empty in Hn. discriminate. }
  assert (Hd : is_Some (details_by_pid apps !! z)).
  { apply fold_insert_is_Some. left. destruct Hin as (a & Ha & Hp & _).
    exists a. split; assumption. }
  destruct Hd as [d Ed]. rewrite Ed.
  assert (Hdin : In d apps /\ ka_pid d = z).
  { unfold details_by_pid in Ed. apply fold_insert_lookup in Ed as [(a & Ha & Hk & Hv)|Hn].
    - subst d. split; assumption.
    - rewrite lookup_empty in Hn. discriminate. }
  unfold pid_truthy. destruct (Z.eqb_spec z 0) as [->|Hz]; simpl; intros H; injection H as <-.
  - split; [exact Hin|]. intros Hne. contradiction.
  - split; [exact Hin|]. intros _. exists d. destruct Hdin as [Hd1 Hd2].
    split; [exact Hd1|]. split; [exact Hd2|]. split; reflexivity.
Qed.
End EnrichTheorems.

Lemma enrich_session_pid_witness :
  es_pid (enrich_session (icon:=unit) (peak:=Z) (fun _ => Some tt) (fun x => x)
            [{| ka_pid := 42; ka_process_name := "spotify.exe";
                ka_display_name := "Spotify"; ka_peak_value := 1%Z |}]
            {| si_source := "Spotify.exe"; si_display_name := "spotify";
               si_title := "t"; si_artist := "a"; si_status := "Playing" |}) = Some 42%Z /\
  exists d : @known_app Z, ka_pid d = 42%Z /\ ka_display_name d = "Spotify" /\
    es_display_name (enrich_session (icon:=unit) (peak:=Z) (fun _ => Some tt) (fun x => x)
            [{| ka_pid := 42; ka_process_name := "spotify.exe";
                ka_display_name := "Spotify"; ka_peak_value := 1%Z |}]
            {| si_source := "Spotify.exe"; si_display_name := "spotify";
               si_title := "t"; si_artist := "a"; si_status := "Playing" |})
      = ka_display_name d.
Proof.
  assert (E : es_pid (enrich_session (icon:=unit) (peak:=Z) (fun _ => Some tt) (fun x => x)
            [{| ka_pid := 42; ka_process_name := "spotify.exe";
                ka_display_name := "Spotify"; ka_peak_value := 1%Z |}]
            {| si_source := "Spotify.exe"; si_display_name := "spotify";
               si_title := "t"; si_artist := "a"; si_status := "Playing" |}) = Some 42%Z)
    by (vm_compute; reflexivity).
  split; [exact E|].
  destruct (proj2 (enrich_session_pid _ _ _ _ _ E) ltac:(discriminate))
    as (d & [<-|[]] & _ & _ & Hd).
  exists {| ka_pid := 42; ka_process_name := "spotify.exe";
            ka_display_name := "Spotify"; ka_peak_value := 1%Z |}.
  split; [reflexivity|]. split; [reflexivity|exact Hd].
Defined.

Section KnownAppsTheorems.
Context {icon peak : Type}.
Variable get_icon_for_pid : Z -> option icon.

(** The loop only sets icons: every other field of every app is kept, in
    order. *)
Theorem cache_icons_fields (cache : gmap string (@polled_app icon peak)) apps :
  map (fun a => with_icon a None) (fst (cache_icons get_icon_for_pid cache apps)) =
  map (fun a => with_icon a None) apps.
Proof.
  revert cache. induction apps as [|a rest IH]; intros cache; simpl; [reflexivity|].
  destruct (String.eqb (pa_process_name a) "").
  - specialize (IH cache). destruct (cache_icons get_icon_for_pid cache rest).
    simpl in *. rewrite IH. reflexivity.
  - set (a2 := match pa_icon match cache !! pa_process_name a with
                             | Some c => with_icon a (pa_icon c) | None => a end with
               | Some _ => _ | None => _ end).
    specialize (IH (<[pa_process_name a := a2]> cache)).
    destruct (cache_icons get_icon_for_pid (<[pa_process_name a := a2]> cache) rest).
    simpl in *. rewrite IH. f_equal.
    unfold a2. destruct (cache !! pa_process_name a); simpl;
      [destruct (pa_icon _)|destruct (pa_icon a)]; reflexivity.
Qed.

(** [all_known_apps_cache] only grows: afterwards it has exactly the names
    it had and the non-empty process names of the apps. *)
Theorem cache_icons_keys (cache : gmap string (@polled_app icon peak)) apps k :
  is_Some (snd (cache_icons get_icon_for_pid cache apps) !! k) <->
  is_Some (cache !! k) \/ (k <> "" /\ exists a, In a apps /\ pa_process_name a = k).
Proof.
  revert cache. induction apps as [|a rest IH]; intros cache; simpl.
  - split; [intros H; left; exact H|]. intros [H|(_ & a & [] & _)]. exact H.
  - destruct (String.eqb_spec (pa_process_name a) "") as [He|Hne].
    + specialize (IH cache). destruct (cache_icons get_icon_for_pid cache rest) as [o c].
      simpl in *. rewrite IH. split.
      * intros [H|(Hk & b & Hb & Hbk)]; [left; exact H|right].
        split; [exact Hk|exists b; split; [right; exact Hb|exact Hbk]].
      * intros [H|(Hk & b & [<-|Hb] & Hbk)]; [left; exact H| |].
        -- exfalso. apply Hk. rewrite <- Hbk. exact He.
        -- right. split; [exact Hk|exists b; split; assumption].
    + match goal with |- context [cache_icons _ (<[_ := ?v]> cache) rest] =>
        specialize (IH (<[pa_process_name a := v]> cache));
        destruct (cache_icons get_icon_for_pid (<[pa_process_name a := v]> cache) rest)
          as [o c] end.
      simpl in *. rewrite IH. destruct (decide (pa_process_name a = k)) as [<-|Hk].
      * rewrite lookup_insert_eq. split.
        -- intros _. right. split; [exact Hne|exists a; split; [left|]; reflexivity].
        -- intros _. left. eexists. reflexivity.
      * rewrite lookup_insert_ne by exact Hk. split.
        -- intros [H|(Hk' & b & Hb & Hbk)]; [left; exact H|right].
           split; [exact Hk'|exists b; split; [right; exact Hb|exact Hbk]].
        -- intros [H|(Hk' & b & [<-|Hb] & Hbk)]; [left; exact H|contradiction|].
           right. split; [exact Hk'|exists b; split; assumption].
Qed.

(** An icon already in the cache for a process name is the one every app
    of that name gets, and it stays in the cache. *)
Theorem cache_icons_reuse (cache : gmap string (@polled_app icon peak)) apps pn c i :
  cache !! pn = Some c -> pa_icon c = Some i ->
  (forall a, In a (fst (cache_icons get_icon_for_pid cache apps)) ->
     pa_process_name a = pn -> pn <> "" -> pa_icon a = Some i) /\
  (exists c', snd (cache_icons get_icon_for_pid cache apps) !! pn = Some c' /\
              pa_icon c' = Some i).
Proof.
  revert cache c. induction apps as [|a rest IH]; intros cache c Hc Hi; simpl.
  - split; [intros _ []|exists c; split; assumption].
  - destruct (String.eqb_spec (pa_process_name a) "") as [He|Hne].
    + destruct (IH cache c Hc Hi) as [H1 H2].
      destruct (cache_icons get_icon_for_pid cache rest) as [o c0]. simpl in *.
      split; [|exact H2]. intros b [<-|Hb] Hbn Hpn; [congruence|exact (H1 b Hb Hbn Hpn)].
    + match goal with |- context [cache_icons _ (<[_ := ?v]> cache) rest] =>
        set (a2 := v) end.
      assert (Hc2 : exists c2, <[pa_process_name a := a2]> cache !! pn = Some c2 /\
                               pa_icon c2 = Some i /\
                               (pa_process_name a = pn -> a2 = c2)).
      { destruct (decide (pa_process_name a = pn)) as [Ea|Ea].
        - exists a2. rewrite Ea, lookup_insert_eq. split; [reflexivity|].
          split; [|intros _; reflexivity].
          unfold a2. rewrite Ea, Hc. simpl. rewrite Hi. reflexivity.
        - exists c. rewrite lookup_insert_ne by exact Ea.
          split; [exact Hc|]. split; [exact Hi|intros E; contradiction]. }
      destruct Hc2 as (c2 & Hc2 & Hi2 & Ha2).
      destruct (IH _ c2 Hc2 Hi2) as [H1 H2].
      destruct (cache_icons get_icon_for_pid (<[pa_process_name a := a2]> cache) rest)
        as [o c0]. simpl in *.
      split; [|exact H2]. intros b [<-|Hb] Hbn Hpn; [|exact (H1 b Hb Hbn Hpn)].
      assert (Hn2 : pa_process_name a2 = pa_process_name a).
      { unfold a2. repeat case_match; reflexivity. }
      rewrite (Ha2 (eq_trans (eq_sym Hn2) Hbn)). exact Hi2.
Qed.

(** After the loop an app with a non-empty process name lacks an icon
    only if [get_icon_for_pid] found none for its pid. *)
Theorem cache_icons_fetch (cache : gmap string (@polled_app icon peak)) apps a :
  In a (fst (cache_icons get_icon_for_pid cache apps)) ->
  pa_process_name a <> "" -> pa_icon a = None -> get_icon_for_pid (pa_pid a) = None.
Proof.
  revert cache. induction apps as [|b rest IH]; intros cache; simpl; [intros []|].
  destruct (String.eqb_spec (pa_process_name b) "") as [He|Hne].
  - specialize (IH cache). destruct (cache_icons get_icon_for_pid cache rest) as [o c].
    simpl in *. intros [<-|Ha]; [intros Hn; contradiction|exact (IH Ha)].
  - match goal with |- context [cache_icons _ (<[_ := ?v]> cache) rest] =>
      set (a2 := v) end.
    specialize (IH (<[pa_process_name b := a2]> cache)).
    destruct (cache_icons get_icon_for_pid (<[pa_process_name b := a2]> cache) rest)
      as [o c]. simpl in *. intros [<-|Ha]; [|exact (IH Ha)].
    intros _. unfold a2.
    destruct (pa_icon match cache !! pa_process_name b with
                      | Some c0 => with_icon b (pa_icon c0) | None => b end) eqn:E;
      simpl; [rewrite E; discriminate|].
    intros H. exact H.
Qed.
End KnownAppsTheorems.

Lemma cache_icons_reuse_witness :
  (<["Discord.exe" := {| pa_pid := 1; pa_process_name := "Discord.exe";
       pa_display_name := "Discord"; pa_is_playing := false; pa_peak_value := 0%Z;
       pa_icon := Some 7%nat |}]> ∅ : gmap string (@polled_app nat Z)) !! "Discord.exe"
    = Some {| pa_pid := 1; pa_process_name := "Discord.exe";
       pa_display_name := "Discord"; pa_is_playing := false; pa_peak_value := 0%Z;
       pa_icon := Some 7%nat |} /\
  exists c', snd (cache_icons (fun _ => None)
    (<["Discord.exe" := {| pa_pid := 1; pa_process_name := "Discord.exe";
       pa_display_name := "Discord"; pa_is_playing := false; pa_peak_value := 0%Z;
       pa_icon := Some 7%nat |}]> ∅)
    [{| pa_pid := 2; pa_process_name := "Discord.exe"; pa_display_name := "Discord";
        pa_is_playing := true; pa_peak_value := 1%Z; pa_icon := None |}]) !! "Discord.exe"
    = Some c' /\ pa_icon c' = Some 7%nat.
Proof.
  split; [apply lookup_insert_eq|].
  exact (proj2 (cache_icons_reuse (fun _ => None) _
    [{| pa_pid := 2; pa_process_name := "Discord.exe"; pa_display_name := "Discord";
        pa_is_playing := true; pa_peak_value := 1%Z; pa_icon := None |}]
    "Discord.exe" {| pa_pid := 1; pa_process_name := "Discord.exe";
       pa_display_name := "Discord"; pa_is_playing := false; pa_peak_value := 0%Z;
       pa_icon := Some 7%nat |} 7%nat (lookup_insert_eq _ _ _) eq_refl)).
Defined.

Lemma cache_icons_fetch_witness :
  In {| pa_pid := 3; pa_process_name := "game.exe"; pa_display_name := "Game";
        pa_is_playing := true; pa_peak_value := 1%Z; pa_icon := None |}
     (fst (cache_icons (icon:=nat) (fun _ => None) ∅
        [{| pa_pid := 3; pa_process_name := "game.exe"; pa_display_name := "Game";
            pa_is_playing := true; pa_peak_value := 1%Z; pa_icon := None |}])) /\
  (fun _ : Z => @None nat) 3%Z = None.
Proof.
  assert (Hin : In {| pa_pid := 3; pa_process_name := "game.exe"; pa_display_name := "Game";
        pa_is_playing := true; pa_peak_value := 1%Z; pa_icon := None |}
     (fst (cache_icons (icon:=nat) (fun _ => None) ∅
        [{| pa_pid := 3; pa_process_name := "game.exe"; pa_display_name := "Game";
            pa_is_playing := true; pa_peak_value := 1%Z; pa_icon := None |}])))
    by (simpl; left; reflexivity).
  split; [exact Hin|].
  exact (cache_icons_fetch (fun _ => None) _ _ _ Hin ltac:(discriminate) eq_refl).
Defined.

(** A check cycle followed by the main window's handling of its messages
    and the worker's handling of the resulting state update: starting from
    agreeing states, the two sides agree again; a [target_closed] leaves the
    worker with no target and both flags false, a [set_paused_flag b] leaves
    it with the same target and manual flag and [was_paused_by_app = b], and
    without a message the worker is as the check left it. *)
Theorem check_cycle_round_trip cfg now w apps a :
  app_target_app_info a = target_app_info w ->
  app_was_paused_by_app a = was_paused_by_app w ->
  let '(w1, effs) := check_audio_and_control_target cfg now w apps in
  let '(a2, msgs) := process_ui_queue a (ui_messages effs) in
  let w3 := fst (handle_worker_queue w1 msgs) in
  app_target_app_info a2 = target_app_info w3 /\
  app_was_paused_by_app a2 = was_paused_by_app w3 /\
  last_known_state w3 = last_known_state w /\
  (In (UiPut TargetClosed) effs ->
     target_app_info w3 = None /\ was_paused_by_app w3 = false /\
     was_manually_paused w3 = false) /\
  (forall b, In (UiPut (SetPausedFlag b)) effs ->
     target_app_info w3 = target_app_info w /\ was_paused_by_app w3 = b /\
     was_manually_paused w3 = was_manually_paused w) /\
  (ui_messages effs = [] -> w3 = w1).
Proof.
  intros Ht Hp. unfold check_audio_and_control_target.
  destruct (target_app_info w) as [tgt|] eqn:Et.
  { destruct (scan _ _ _ _ _) as [is_int timers2].
    destruct (default ∅ (last_known_state w) !! target_source tgt) as [sess|] eqn:Es.
    - assert (Hst : state_truthy (last_known_state w) &&
                    not_in_state (target_source tgt) (last_known_state w) = false).
      { destruct (last_known_state w) as [m|]; simpl in Es |- *;
          [|rewrite lookup_empty in Es; discriminate].
        rewrite (bool_decide_eq_true_2 (is_Some (m !! target_source tgt)))
          by (rewrite Es; eexists; reflexivity).
        apply andb_false_r. }
      destruct is_int.
      + destruct (String.eqb (status sess) "Playing" && negb (was_paused_by_app w)).
        * simpl. rewrite Ht, Hst. simpl.
          split; [reflexivity|]. split; [reflexivity|]. split; [reflexivity|].
          split; [intros [H|[H|[]]]; discriminate|].
          split; [|discriminate].
          intros b [H|[H|[]]]; [discriminate|]. injection H as <-.
          split; [reflexivity|]. split; reflexivity.
        * simpl. split; [simpl; congruence|]. split; [simpl; congruence|]. split; [reflexivity|].
          split; [intros []|]. split; [intros b []|reflexivity].
      + destruct (was_paused_by_app w) eqn:Ebp.
        * destruct (cfg_ignore_manual_pause cfg && was_manually_paused w);
          simpl; rewrite Ht, Hst; simpl;
          (split; [reflexivity|]); (split; [reflexivity|]); (split; [reflexivity|]);
          (split; [intros H; repeat match type of H with _ \/ _ => destruct H as [H|H] end;
                   first [discriminate | contradiction]|]);
          (split; [|discriminate]);
          intros b H; repeat match type of H with _ \/ _ => destruct H as [H|H] end;
          try discriminate; try contradiction;
          injection H as <-; (split; [reflexivity|]); split; reflexivity.
        * simpl. split; [simpl; congruence|]. split; [simpl; congruence|]. split; [reflexivity|].
          split; [intros []|]. split; [intros b []|reflexivity].
    - simpl. split; [reflexivity|]. split; [reflexivity|]. split; [reflexivity|].
      split; [intros _; split; [reflexivity|]; split; reflexivity|].
      split; [intros b [H|[]]; discriminate|discriminate]. }
  simpl. split; [simpl; congruence|]. split; [simpl; congruence|]. split; [reflexivity|].
  split; [intros []|]. split; [intros b []|reflexivity].
Qed.

Lemma check_cycle_round_trip_witness :
  app_target_app_info {| app_target_app_info := Some spotify_target;
                         app_was_paused_by_app := false |}
    = target_app_info {| target_app_info := Some spotify_target; was_paused_by_app := false;
        was_manually_paused := false;
        last_known_state := Some {[ "Spotify.exe" := {| status := "Playing" |} ]};
        delay_timers := ∅ |} /\
  was_paused_by_app (fst (handle_worker_queue
    (fst (check_audio_and_control_target
       {| cfg_whitelist := default_whitelist; cfg_ignore_manual_pause := false |} 0
       {| target_app_info := Some spotify_target; was_paused_by_app := false;
          was_manually_paused := false;
          last_known_state := Some {[ "Spotify.exe" := {| status := "Playing" |} ]};
          delay_timers := ∅ |} [audiodg]))
    (snd (process_ui_queue {| app_target_app_info := Some spotify_target;
                              app_was_paused_by_app := false |}
            (ui_messages (snd (check_audio_and_control_target
       {| cfg_whitelist := default_whitelist; cfg_ignore_manual_pause := false |} 0
       {| target_app_info := Some spotify_target; was_paused_by_app := false;
          was_manually_paused := false;
          last_known_state := Some {[ "Spotify.exe" := {| status := "Playing" |} ]};
          delay_timers := ∅ |} [audiodg]))))))) = true.
Proof.
  split; [reflexivity|].
  pose proof (check_cycle_round_trip
       {| cfg_whitelist := default_whitelist; cfg_ignore_manual_pause := false |} 0
       {| target_app_info := Some spotify_target; was_paused_by_app := false;
          was_manually_paused := false;
          last_known_state := Some {[ "Spotify.exe" := {| status := "Playing" |} ]};
          delay_timers := ∅ |} [audiodg]
       {| app_target_app_info := Some spotify_target; app_was_paused_by_app := false |}
       eq_refl eq_refl) as H.
  destruct (check_audio_and_control_target _ _ _ _) as [w1 effs] eqn:E.
  vm_compute in E. injection E as <- <-.
  destruct (process_ui_queue _ _) as [a2 msgs] eqn:E2. simpl.
  destruct H as (_ & _ & _ & _ & H & _).
  exact (proj1 (proj2 (H true (or_intror (or_introl eq_refl))))).
Defined.

Lemma find_target_session_first app_id ss s :
  find_target_session app_id ss = Some s ->
  exists pre post, ss = (pre ++ s :: post)%list /\ ctl_matches app_id s = true /\
    Forall (fun x => ctl_matches app_id x = false) pre.
Proof.
  induction ss as [|x rest IH]; simpl; [discriminate|].
  destruct (ctl_matches app_id x) eqn:E.
  - intros H. injection H as <-. exists [], rest. split; [reflexivity|].
    split; [exact E|constructor].
  - intros H. destruct (IH H) as (pre & post & -> & Hm & Hf).
    exists (x :: pre), post. split; [reflexivity|]. split; [exact Hm|].
    constructor; assumption.
Qed.

Lemma find_target_session_none app_id ss :
  find_target_session app_id ss = None -> forall s, In s ss -> ctl_matches app_id s = false.
Proof.
  induction ss as [|x rest IH]; simpl; [intros _ _ []|].
  destruct (ctl_matches app_id x) eqn:E; [discriminate|].
  intros H s [<-|Hs]; [exact E|exact (IH H s Hs)].
Qed.

(** [control_media] sends at most one command: the requested one, only if
    it is 'play' or 'pause', to the first session whose id equals [app_id]
    (every earlier session has another id). *)
Theorem control_media_sends m app_id command :
  match snd (control_media m app_id command) with
  | [] => True
  | [(id, c)] =>
      c = command /\ (command = "play" \/ command = "pause") /\ app_id = Some id /\
      exists mgr pre ts post,
        m = Some mgr /\ ctl_get_sessions mgr = Ok (pre ++ ts :: post)%list /\
        ctl_source_app_user_model_id ts = id /\
        Forall (fun x => ctl_source_app_user_model_id x <> id) pre
  | _ => False
  end.
Proof.
  unfold control_media. destruct m as [mgr|]; [|exact I].
  destruct (ctl_get_sessions mgr) as [ss|e] eqn:Eg; [|exact I].
  destruct (find_target_session app_id ss) as [ts|] eqn:Ef; [|exact I].
  apply find_target_session_first in Ef as (pre & post & -> & Hm & Hf).
  assert (Hid : app_id = Some (ctl_source_app_user_model_id ts)).
  { unfold ctl_matches, opt_str_eqb in Hm. destruct app_id as [x|]; [|discriminate].
    apply String.eqb_eq in Hm. rewrite Hm. reflexivity. }
  assert (Hpre : Forall (fun x => ctl_source_app_user_model_id x <>
                                  ctl_source_app_user_model_id ts) pre).
  { eapply Forall_impl; [exact Hf|]. intros x Hx E. rewrite Hid in Hx.
    unfold ctl_matches, opt_str_eqb in Hx. rewrite E, String.eqb_refl in Hx.
    discriminate. }
  destruct (String.eqb_spec command "play") as [->|Hpl].
  { destruct (try_play_async ts); simpl;
    (split; [reflexivity|]); (split; [left; reflexivity|]); (split; [exact Hid|]);
    exists mgr, pre, ts, post; repeat split; assumption. }
  destruct (String.eqb_spec command "pause") as [->|Hpa]; [|exact I].
  destruct (try_pause_async ts); simpl;
    (split; [reflexivity|]); (split; [right; reflexivity|]); (split; [exact Hid|]);
    exists mgr, pre, ts, post; repeat split; assumption.
Qed.

(** Without a manager, or without a session whose id is [app_id], the
    command is not sent and a warning is logged. *)
Theorem control_media_no_session m app_id command :
  (m = None \/ exists mgr ss, m = Some mgr /\ ctl_get_sessions mgr = Ok ss /\
                              forall s, In s ss -> Some (ctl_source_app_user_model_id s) <> app_id) ->
  snd (control_media m app_id command) = [] /\ In LogWarning (fst (control_media m app_id command)).
Proof.
  intros [->|(mgr & ss & -> & Eg & Hn)]; [split; [reflexivity|left; reflexivity]|].
  unfold control_media. rewrite Eg.
  destruct (find_target_session app_id ss) as [ts|] eqn:Ef.
  - exfalso. apply find_target_session_first in Ef as (pre & post & -> & Hm & _).
    apply (Hn ts); [apply in_or_app; right; left; reflexivity|].
    unfold ctl_matches, opt_str_eqb in Hm. destruct app_id as [x|]; [|discriminate].
    apply String.eqb_eq in Hm. rewrite Hm. reflexivity.
  - split; [reflexivity|right; left; reflexivity].
Qed.

Lemma control_media_no_session_witness :
  snd (control_media (Some {| ctl_get_sessions := Ok [] |}) (Some "Spotify.exe") "play") = [] /\
  In LogWarning (fst (control_media (Some {| ctl_get_sessions := Ok [] |})
                        (Some "Spotify.exe") "play")).
Proof.
  apply control_media_no_session. right.
  exists {| ctl_get_sessions := Ok [] |}, []. split; [reflexivity|].
  split; [reflexivity|intros s []].
Defined.

Lemma py_split_parts c s :
  forall x, In x (py_split c s) ->
  str_has_char c x = false /\
  (forall d, str_has_char d x = true -> str_has_char d s = true).
Proof.
  induction s as [|y rest IH]; simpl.
  - intros x [<-|[]]. split; [reflexivity|discriminate].
  - destruct (Ascii.eqb_spec y c) as [->|Hne].
    + intros x [<-|Hx]; [split; [reflexivity|discriminate]|].
      destruct (IH x Hx) as [H1 H2]. split; [exact H1|].
      intros d Hd. rewrite (H2 d Hd). apply orb_true_r.
    + destruct (py_split c rest) as [|p ps] eqn:E.
      * intros x [<-|[]]. simpl. split.
        -- apply Ascii.eqb_neq in Hne. rewrite Hne. reflexivity.
        -- intros d Hd. simpl in Hd. rewrite orb_false_r in Hd. rewrite Hd. reflexivity.
      * intros x [<-|Hx].
        -- destruct (IH p (or_introl eq_refl)) as [H1 H2]. simpl. split.
           ++ apply Ascii.eqb_neq in Hne. rewrite Hne, H1. reflexivity.
           ++ intros d Hd. simpl in Hd. apply orb_true_iff in Hd as [Hd|Hd];
                [rewrite Hd; reflexivity|rewrite (H2 d Hd); apply orb_true_r].
        -- destruct (IH x (or_intror Hx)) as [H1 H2]. split; [exact H1|].
           intros d Hd. rewrite (H2 d Hd). apply orb_true_r.
Qed.

Lemma substring_has_char d n m s :
  str_has_char d (String.substring n m s) = true -> str_has_char d s = true.
Proof.
  revert n m. induction s as [|y rest IH]; intros n m; simpl.
  - destruct n, m; discriminate.
  - destruct n as [|n].
    + destruct m as [|m]; simpl; [discriminate|].
      intros H. apply orb_true_iff in H as [H|H]; [rewrite H; reflexivity|].
      rewrite (IH 0%nat m H). apply orb_true_r.
    + intros H. rewrite (IH n m H). apply orb_true_r.
Qed.

Lemma hd_no_char c l :
  (forall x, In x l -> str_has_char c x = false) -> str_has_char c (List.hd "" l) = false.
Proof. destruct l as [|x l]; simpl; [reflexivity|]. intros H. apply H. left. reflexivity. Qed.

Lemma nth_no_char c n l :
  (forall x, In x l -> str_has_char c x = false) -> str_has_char c (List.nth n l "") = false.
Proof.
  intros H. destruct (Nat.lt_ge_cases n (length l)) as [Hl|Hl].
  - apply H. apply nth_In. exact Hl.
  - rewrite nth_overflow by exact Hl. reflexivity.
Qed.

(** The name [get_app_name_from_source] derives never contains a '.'. *)
Theorem app_name_has_no_dot source_id :
  str_has_char "."%char (get_app_name_from_source source_id) = false.
Proof.
  assert (Hfb : str_has_char "."%char
    (let name := List.hd "" (py_split "."%char source_id) in
     if str_endswith "AB" name
     then String.substring 0 (String.length name - 2) name else name) = false).
  { simpl. assert (Hn : str_has_char "."%char (List.hd "" (py_split "."%char source_id)) = false).
    { apply hd_no_char. intros x Hx. exact (proj1 (py_split_parts _ _ x Hx)). }
    destruct (str_endswith "AB" _); [|exact Hn].
    destruct (str_has_char "."%char (String.substring _ _ _)) eqn:E; [|reflexivity].
    rewrite (substring_has_char _ _ _ _ E) in Hn. discriminate. }
  unfold get_app_name_from_source.
  destruct (str_has_char "!"%char source_id); [|exact Hfb].
  destruct (1 <? length _)%nat; [|exact Hfb].
  apply hd_no_char. intros x Hx.
  destruct (py_split_parts _ _ x Hx) as [_ H2].
  destruct (str_has_char "."%char x) eqn:E; [|reflexivity].
  specialize (H2 _ E). rewrite nth_no_char in H2; [discriminate|].
  intros y Hy. exact (proj1 (py_split_parts _ _ y Hy)).
Qed.

Lemma get_path_found v ks x dflt :
  get_path v ks YNone = x -> x <> YNone -> get_path v ks dflt = x.
Proof.
  revert v. induction ks as [|k rest IH]; intros v; simpl; [intros H _; exact H|].
  destruct v; try (intros <- H; contradiction).
  destruct (dict_lookup _ k); [apply IH|intros <- H; contradiction].
Qed.

Lemma cleanup_job_sub now rd files y :
  In y (fst (cleanup_job now rd files)) -> In y files.
Proof.
  induction files as [|g rest IH]; simpl; [intros []|].
  destruct (Z.eqb (lf_size g) 0 || Z.leb rd (age_days now g)).
  - destruct (lf_unlink_ok g); [|intros []].
    destruct (cleanup_job now rd rest) as [removed err]. simpl in *.
    intros [<-|H]; [left; reflexivity|right; exact (IH H)].
  - intros H. right. exact (IH H).
Qed.

Lemma cleanup_job_spec now rd files :
  (forall x, In x files -> lf_unlink_ok x = true) ->
  snd (cleanup_job now rd files) = false /\
  forall x, In x files ->
    (In x (fst (cleanup_job now rd files)) <->
     lf_size x = 0%Z \/ (rd <= age_days now x)%Z).
Proof.
  induction files as [|g rest IH]; intros Hok; simpl; [split; [reflexivity|intros x []]|].
  destruct IH as [He Hx]; [intros x Hin; apply Hok; right; exact Hin|].
  assert (Hg : Z.eqb (lf_size g) 0 || Z.leb rd (age_days now g) = true
                <-> lf_size g = 0%Z \/ (rd <= age_days now g)%Z).
  { rewrite orb_true_iff, Z.eqb_eq, Z.leb_le. reflexivity. }
  destruct (Z.eqb (lf_size g) 0 || Z.leb rd (age_days now g)) eqn:Er.
  - rewrite (Hok g (or_introl eq_refl)).
    destruct (cleanup_job now rd rest) as [removed err] eqn:Ec. simpl in *.
    split; [exact He|]. intros x [<-|Hin].
    + split; [intros _; apply Hg; reflexivity|intros _; left; reflexivity].
    + rewrite <- (Hx x Hin). split; [|intros H; right; exact H].
      intros [<-|H]; [|exact H]. apply (Hx _ Hin). apply Hg. reflexivity.
  - split; [exact He|]. intros x [<-|Hin]; [|exact (Hx x Hin)].
    split.
    + intros Hr. pose proof (cleanup_job_sub _ _ _ _ Hr) as Hin.
      apply (Hx _ Hin) in Hr. apply Hg in Hr. congruence.
    + intros H. apply Hg in H. congruence.
Qed.

(** At start-up the log cleanup, with its retention read from the loaded
    configuration, removes every empty file and every file at least 365
    days old, and keeps every non-empty file less than a day old (when no
    [unlink] fails, and then no error is logged). *)
Theorem startup_cleanup_bounds f now files :
  (forall x, In x files -> lf_unlink_ok x = true) ->
  snd (startup_cleanup f now files) = false /\
  forall x, In x files ->
    ((lf_size x = 0%Z \/ (365 <= age_days now x)%Z) -> In x (fst (startup_cleanup f now files))) /\
    (lf_size x <> 0%Z -> (age_days now x < 1)%Z -> ~ In x (fst (startup_cleanup f now files))).
Proof.
  intros Hok. destruct (proj1 (load_config_settings f)) as (d & Hd & Hb).
  unfold startup_cleanup.
  assert (E : config_get (load_config f) "logging.log_retention_days" (YInt 7) = YInt d)
    by exact (get_path_found _ _ _ _ Hd ltac:(discriminate)).
  rewrite E.
  destruct (cleanup_job_spec now d files Hok) as [He Hx].
  split; [exact He|]. intros x Hin. split.
  - intros H. apply (Hx x Hin). destruct H as [H|H]; [left; exact H|right; lia].
  - intros Hs Ha Hr. apply (Hx x Hin) in Hr. destruct Hr as [Hr|Hr]; [contradiction|lia].
Qed.

Lemma startup_cleanup_bounds_witness :
  (forall x, In x [{| lf_name := "app_run_old.log"; lf_size := 10; lf_mtime := 0;
                      lf_unlink_ok := true |}] -> lf_unlink_ok x = true) /\
  In {| lf_name := "app_run_old.log"; lf_size := 10; lf_mtime := 0; lf_unlink_ok := true |}
     (fst (startup_cleanup NoFile (400 * 86400)
        [{| lf_name := "app_run_old.log"; lf_size := 10; lf_mtime := 0; lf_unlink_ok := true |}])).
Proof.
  assert (Hok : forall x, In x [{| lf_name := "app_run_old.log"; lf_size := 10; lf_mtime := 0;
                      lf_unlink_ok := true |}] -> lf_unlink_ok x = true)
    by (intros x [<-|[]]; reflexivity).
  split; [exact Hok|].
  apply (proj2 (startup_cleanup_bounds NoFile (400 * 86400) _ Hok) _ (or_introl eq_refl)).
  right. vm_compute. discriminate.
Defined.

(** With a configuration loaded by [_load_config] (any file), the worker
    never takes its "do not resume after a manual pause" branch: whenever a
    check clears [was_paused_by_app] it also sends 'play' to the target,
    even if the target was paused by hand. *)
Theorem loaded_config_always_resumes f wl now w apps t :
  target_app_info w = Some t ->
  In (UiPut (SetPausedFlag false))
     (snd (check_audio_and_control_target
             {| cfg_whitelist := wl;
                cfg_ignore_manual_pause := worker_ignore_manual_pause (load_config f) |}
             now w apps)) ->
  In (ControlMedia (Some (target_source t)) "play")
     (snd (check_audio_and_control_target
             {| cfg_whitelist := wl;
                cfg_ignore_manual_pause := worker_ignore_manual_pause (load_config f) |}
             now w apps)).
Proof.
  intros Ht. unfold worker_ignore_manual_pause.
  rewrite (proj2 (proj2 (proj2 (load_config_settings f))) (YBool false)). simpl.
  unfold check_audio_and_control_target. rewrite Ht.
  destruct (scan _ _ _ _ _) as [is_int timers2].
  destruct (default ∅ (last_known_state w) !! target_source t) as [sess|]; simpl;
    [|intros [H|[]]; discriminate].
  destruct is_int.
  - destruct (String.eqb (status sess) "Playing" && negb (was_paused_by_app w)); simpl;
      [intros [H|[H|[]]]; discriminate|intros []].
  - destruct (was_paused_by_app w); simpl; [intros _; left; reflexivity|intros []].
Qed.

Lemma loaded_config_always_resumes_witness :
  target_app_info (worker_paused_by_app true (Some {[ "Spotify.exe" := {| status := "Paused" |} ]}))
    = Some spotify_target /\
  In (ControlMedia (Some "Spotify.exe") "play")
     (snd (check_audio_and_control_target
             {| cfg_whitelist := default_whitelist;
                cfg_ignore_manual_pause := worker_ignore_manual_pause (load_config NoFile) |}
             0 (worker_paused_by_app true (Some {[ "Spotify.exe" := {| status := "Paused" |} ]}))
             [])).
Proof.
  split; [reflexivity|].
  apply (loaded_config_always_resumes NoFile default_whitelist 0
           (worker_paused_by_app true (Some {[ "Spotify.exe" := {| status := "Paused" |} ]}))
           [] spotify_target eq_refl).
  vm_compute. right. left. reflexivity.
Defined.

(** [show_settings_window] calls [set_initial_values] without its
    [ignore_manual_pause] argument, so it always ends in a [TypeError]: the
    configuration is never written, the worker is never told to reload,
    and the menu is left disabled. *)
Theorem show_settings_window_raises cfg saved :
  show_settings_window cfg saved =
  {| so_menu_state := "disabled"; so_config := cfg; so_worker_msgs := [];
     so_raised := Some "TypeError" |}.
Proof. reflexivity. Qed.

Lemma on_update_whitelist_nodup_witness :
  NoDup (map fst (on_update_whitelist
    [("Discord.exe", {| wl_mode := Some "delay"; wl_delay_seconds := Some 3%Z |})]
    "Teams.exe" (entry_on_update "忽略" 2%Z))).
Proof.
  apply on_update_whitelist_nodup. simpl. apply NoDup_singleton.
Defined.

(** When validation fails (an entry's [delay_seconds] that [int()]
    rejects), the loaded configuration still has the user's boolean
    [general.debug_mode] and the default whitelist. *)
Theorem load_config_after_failed_validation u e g b :
  validate_config (YDict u) = Raise e -> u <> [] ->
  dict_lookup u "general" = Some (YDict g) -> dict_lookup g "debug_mode" = Some (YBool b) ->
  config_get (load_config (Parsed (YDict u))) "general.debug_mode" YNone = YBool b /\
  config_get (load_config (Parsed (YDict u))) "audio.whitelist" YNone =
    YDict [(YStr "SystemSoundsService.exe", ignore_entry); (YStr "audiodg.exe", ignore_entry)].
Proof.
  intros Hv Hu Hg Hb. unfold load_config.
  replace (py_truthy (YDict u)) with true by (destruct u; [contradiction|reflexivity]).
  rewrite Hv. unfold validate_logging, validate_general. rewrite Hg, Hb.
  repeat case_match; split; reflexivity.
Qed.

Lemma load_config_after_failed_validation_witness :
  config_get (load_config (Parsed (YDict
    [(YStr "general", YDict [(YStr "debug_mode", YBool true)]);
     (YStr "audio", YDict [(YStr "whitelist", YDict [(YStr "Discord.exe",
        YDict [(YStr "mode", YStr "delay"); (YStr "delay_seconds", YStr "abc")])])])])))
    "general.debug_mode" YNone = YBool true.
Proof.
  apply (load_config_after_failed_validation _ "ValueError"
           [(YStr "debug_mode", YBool true)] true);
    [vm_compute; reflexivity|discriminate|reflexivity|reflexivity].
Defined.
